(** * settings_parser.util: a shallow embedding and its verified properties

    The Python module [settings_parser/util.py] provides
    - [temp_filename], a context manager around a named temporary file,
    - [cached_property], a non-data descriptor that memoizes a computed
      attribute in the instance dictionary,
    - [log_exceptions_warnings], a decorator that logs the exception or the
      warnings of a call,
    - [console_logger_level] and [no_logging], two context managers that
      change the global logging configuration,
    - the marker classes [ConfigError] and [ConfigWarning].

    Python code is stateful and may raise: every operation is embedded as a
    function from a state to an outcome (a value or a raised exception)
    and a new state.  Dictionaries are stdpp finite maps. *)

From Stdlib Require Import ZArith Ascii String.
From stdpp Require Import gmap strings list fin_maps pretty.

Local Open Scope Z_scope.

(** ** Python values, classes and exceptions *)

(** Object references are allocation numbers; two references are the same
    object exactly when the numbers are equal. *)
Definition obj := nat.

Inductive value :=
| VNone
| VBool (b : bool)
| VInt (n : Z)
| VStr (s : string)
| VRef (o : obj).

(** A class is known by its name and the names of the other classes of its
    method resolution order. *)
Record pyclass := PyClass { cls_name : string; cls_bases : list string }.

Definition issubclass (c : pyclass) (base : string) : bool :=
  bool_decide (base = cls_name c) || bool_decide (base ∈ cls_bases c).

(** An exception instance: its class, its [args] tuple and the exception
    that was being handled when it was raised ([__context__]). *)
#[warnings="-register-all"]
Inductive exn :=
| Exn (exc_class : pyclass) (exc_args : list value) (exc_context : option exn).

Definition exc_class (e : exn) : pyclass := let 'Exn c _ _ := e in c.
Definition exc_args (e : exn) : list value := let 'Exn _ a _ := e in a.
Definition exc_context (e : exn) : option exn := let 'Exn _ _ c := e in c.

Definition isinstance (e : exn) (base : string) : bool :=
  issubclass (exc_class e) base.

(** The built-in classes the module meets. *)
Definition BaseException_ : pyclass := PyClass "BaseException" ["object"].
Definition Exception_ : pyclass := PyClass "Exception" ["BaseException"; "object"].
Definition KeyboardInterrupt_ : pyclass :=
  PyClass "KeyboardInterrupt" ["BaseException"; "object"].
Definition exception_class (n : string) (bases : list string) : pyclass :=
  PyClass n (bases ++ ["Exception"; "BaseException"; "object"]).
Definition IndexError_ : pyclass := exception_class "IndexError" ["LookupError"].
Definition TypeError_ : pyclass := exception_class "TypeError" [].
Definition ValueError_ : pyclass := exception_class "ValueError" [].
Definition AttributeError_ : pyclass := exception_class "AttributeError" [].
Definition FileNotFoundError_ : pyclass :=
  exception_class "FileNotFoundError" ["OSError"].
Definition UnsupportedOperation_ : pyclass :=
  exception_class "UnsupportedOperation" ["OSError"; "ValueError"].
Definition UnicodeEncodeError_ : pyclass :=
  exception_class "UnicodeEncodeError" ["UnicodeError"; "ValueError"].
Definition SyntaxError_ : pyclass := exception_class "SyntaxError" [].
Definition Warning_ : pyclass := exception_class "Warning" [].
Definition UserWarning_ : pyclass := exception_class "UserWarning" ["Warning"].
Definition DeprecationWarning_ : pyclass :=
  exception_class "DeprecationWarning" ["Warning"].

(** The two classes of the module: [class ConfigError(SyntaxError)] and
    [class ConfigWarning(UserWarning)]. *)
Definition ConfigError : pyclass :=
  exception_class "ConfigError" ["SyntaxError"].
Definition ConfigWarning : pyclass :=
  exception_class "ConfigWarning" ["UserWarning"; "Warning"].

(** ** Outcomes and the state-and-exception monad *)

Inductive outcome (A : Type) :=
| Ret (a : A)
| Raise (e : exn).
Arguments Ret {A} a.
Arguments Raise {A} e.

Definition M (S A : Type) : Type := S → outcome A * S.

Definition ret {S A} (a : A) : M S A := λ s, (Ret a, s).
Definition raise {S A} (e : exn) : M S A := λ s, (Raise e, s).
Definition bind {S A B} (k : A → M S B) (m : M S A) : M S B :=
  λ s, match m s with
       | (Ret a, s') => k a s'
       | (Raise e, s') => (Raise e, s')
       end.
Definition modify {S} (f : S → S) : M S unit := λ s, (Ret tt, f s).

(** The monad is used through stdpp's notations [x ← m; k] and [m;; k]. *)
#[global] Instance M_ret {S} : MRet (M S) := @ret S.
#[global] Instance M_bind {S} : MBind (M S) := @bind S.

(** [try: m finally: c]: [c] runs however [m] ends; an exception of [c]
    replaces the outcome of [m], and has the exception of [m], if any, as
    its context. *)
Definition try_finally {S A} (m : M S A) (c : M S unit) : M S A :=
  λ s, let (r, s1) := m s in
       match c s1 with
       | (Ret _, s2) => (r, s2)
       | (Raise (Exn cl a ctx), s2) =>
           (Raise (Exn cl a (match r with Raise e0 => Some e0 | Ret _ => ctx end)), s2)
       end.

(** ** Generator-based context managers

    A function decorated with [contextlib.contextmanager] that yields at
    one place is cut at its [yield]: the code that runs up to it and gives
    the yielded value together with the local variables, the code that runs
    when the generator is resumed, and the code that runs when the exception
    of the block is thrown in at the [yield]. *)
Record context_manager (S Y L : Type) := ContextManager {
  before_yield : M S (Y * L);
  after_yield : L → M S unit;
  after_throw : L → exn → M S unit
}.
Arguments ContextManager {S Y L} _ _ _.
Arguments before_yield {S Y L} _.
Arguments after_yield {S Y L} _.
Arguments after_throw {S Y L} _.

(** [with cm as y: block(y)].  The block does not run when the generator
    raises before it yields.  An exception of the block is thrown into the
    generator; it goes on to the caller unless the generator swallows it
    (the statement then ends with no value) or raises another one. *)
Definition with_ {S Y L A} (cm : context_manager S Y L) (block : Y → M S A)
    : M S (option A) :=
  λ s, match before_yield cm s with
       | (Raise e, s1) => (Raise e, s1)
       | (Ret (y, l), s1) =>
           match block y s1 with
           | (Ret a, s2) =>
               match after_yield cm l s2 with
               | (Ret _, s3) => (Ret (Some a), s3)
               | (Raise e, s3) => (Raise e, s3)
               end
           | (Raise e, s2) =>
               match after_throw cm l e s2 with
               | (Ret _, s3) => (Ret None, s3)
               | (Raise e', s3) => (Raise e', s3)
               end
           end
       end.

(** ** [temp_filename] *)

Module TempFilename.

(** The file system: the text of every file, by path. *)
Abbreviation filesystem := (gmap string string).

Fixpoint count_char (c : ascii) (s : string) : nat :=
  match s with
  | EmptyString => 0
  | String d s' => (if Ascii.eqb c d then 1 else 0) + count_char c s'
  end.
Definition has_char (c : ascii) (s : string) : bool :=
  negb (Nat.eqb (count_char c s) 0).
Fixpoint only_chars (allowed s : string) : bool :=
  match s with
  | EmptyString => true
  | String d s' => has_char d allowed && only_chars allowed s'
  end.

(** The rules of [open] for a mode: known letters, none twice, exactly one
    of [r], [w], [a], [x], and not both [t] and [b]. *)
Definition valid_mode (mode : string) : bool :=
  only_chars "rwaxbt+" mode &&
  forallb (λ c, Nat.leb (count_char c mode) 1) (list_ascii_of_string "rwaxbt+") &&
  Nat.eqb (count_char "r" mode + count_char "w" mode +
           count_char "a" mode + count_char "x" mode) 1 &&
  negb (has_char "t" mode && has_char "b" mode).
Definition writable (mode : string) : bool :=
  has_char "w" mode || has_char "a" mode || has_char "x" mode || has_char "+" mode.
Definition binary (mode : string) : bool := has_char "b" mode.

(** The text of the [ValueError] of [open] for a mode it refuses.  The
    mode is checked in this order: no null character; known letters only,
    none twice; not both [t] and [b]; not more than one of [r], [w], [a],
    [x]; then, by the file object, not less than one. *)
Definition mode_error_text (mode : string) : string :=
  if has_char (ascii_of_nat 0) mode
  then "embedded null character"
  else if negb (only_chars "rwaxbt+" mode &&
                forallb (λ c, Nat.leb (count_char c mode) 1)
                        (list_ascii_of_string "rwaxbt+"))
  then "invalid mode: '" +:+ mode +:+ "'"
  else if has_char "t" mode && has_char "b" mode
  then "can't have text and binary mode at once"
  else if Nat.ltb 1 (count_char "r" mode + count_char "w" mode +
                     count_char "a" mode + count_char "x" mode)
  then "must have exactly one of create/read/write/append mode"
  else "Must have exactly one of create/read/write/append mode and at most one plus".

(** [tempfile.NamedTemporaryFile(mode=mode, delete=False)]: a new, empty
    file under a name that is not in use; no file is made for a mode that
    [open] refuses. *)
Definition NamedTemporaryFile (mode : string) : M filesystem string :=
  λ fs, if valid_mode mode
        then let name := fresh (dom fs) in (Ret name, <[name := ""]> fs)
        else (Raise (Exn ValueError_ [VStr (mode_error_text mode)] None), fs).

(** The exception of [temp.write(data)] for a text [data], if it raises.
    A binary file refuses a text, with [UnsupportedOperation] when it is
    not writable and [TypeError] when it is; a text file that is not
    writable refuses every text; a writable text file refuses the texts
    that its encoding cannot encode.  The encoding is that of the locale:
    [codec] gives, for a text, the [UnicodeEncodeError] that encoding it
    raises, if any. *)
Definition write_refusal (codec : string → option exn) (mode data : string)
    : option exn :=
  if binary mode
  then if writable mode
       then Some (Exn TypeError_
                    [VStr "a bytes-like object is required, not 'str'"] None)
       else Some (Exn UnsupportedOperation_ [VStr "write"] None)
  else if writable mode
  then codec data
  else Some (Exn UnsupportedOperation_ [VStr "not writable"] None).

(** [temp.write(data)] for a text [data], then what [temp.close()] leaves
    in the file. *)
Definition write (codec : string → option exn) (mode name data : string)
    : M filesystem unit :=
  match write_refusal codec mode data with
  | Some e => raise e
  | None => modify (λ fs, <[name := default "" (fs !! name) +:+ data]> fs)
  end.

(** [os.unlink(path)] *)
Definition unlink (path : string) : M filesystem unit :=
  λ fs, match fs !! path with
        | Some _ => (Ret tt, delete path fs)
        | None => (Raise (Exn FileNotFoundError_
                            [VInt 2; VStr "No such file or directory"] None), fs)
        end.

(** [if data:] holds for a text that is not empty. *)
Definition truthy (data : option string) : bool :=
  match data with
  | Some d => negb (bool_decide (d = ""))
  | None => false
  end.

(** The default of the parameter [mode]. *)
Definition default_mode : string := "wt".

(** The generator [temp_filename(data, mode)], run where the encoding of
    the locale is [codec]; its local variable is [temp.name].
    [try: yield temp.name finally: os.unlink(temp.name)] runs the [unlink]
    on both ways out of the [yield]; the write comes before the [try]. *)
Definition temp_filename (codec : string → option exn) (data : option string)
    (mode : string) : context_manager filesystem string string :=
  ContextManager
    (name ← NamedTemporaryFile mode;
     (if truthy data then write codec mode name (default "" data) else mret tt);;
     mret (name, name))
    (λ name, unlink name)
    (λ name exc, try_finally (raise exc) (unlink name)).

(** The exception of [os.unlink] for a path that names no file, raised
    while [context] was being handled. *)
Definition no_such_file (context : option exn) : exn :=
  Exn FileNotFoundError_ [VInt 2; VStr "No such file or directory"] context.

(** Two encodings.  UTF-8 encodes every text made of the characters of
    [string].  ASCII refuses a text at the first run of characters from
    128 on: the exception carries the name of the encoding, the text, the
    bounds of the run and the reason. *)
Definition utf8_codec : string → option exn := λ _, None.

Definition is_ascii (c : ascii) : bool := Nat.ltb (nat_of_ascii c) 128.
Fixpoint ascii_prefix (s : string) : nat :=
  match s with
  | String c s' => if is_ascii c then S (ascii_prefix s') else 0
  | EmptyString => 0
  end.
Fixpoint non_ascii_run (s : string) : nat :=
  match s with
  | String c s' => if is_ascii c then 0 else S (non_ascii_run s')
  | EmptyString => 0
  end.
Definition ascii_codec : string → option exn :=
  λ text,
    let start := ascii_prefix text in
    let run := non_ascii_run (String.substring start (String.length text - start) text) in
    if Nat.eqb run 0 then None
    else Some (Exn UnicodeEncodeError_
                 [VStr "ascii"; VStr text; VInt (Z.of_nat start);
                  VInt (Z.of_nat (start + run)); VStr "ordinal not in range(128)"]
                 None).

(** The text [café], whose last character ASCII does not encode. *)
Definition cafe : string := "caf" +:+ String (ascii_of_nat 233) EmptyString.

(** The statement that the scope of [temp_filename] with the default mode
    gives the block a path that named no file before and names a file
    holding the text, and that the path names no file after the scope. *)
Definition scoped (codec : string → option exn) (data : option string) {A}
    (block : string → M filesystem A) (fs : filesystem) : Prop :=
  let path := fresh (dom fs) in
  fs !! path = None ∧
  before_yield (temp_filename codec data default_mode) fs =
    (Ret (path, path), <[path := default "" data]> fs) ∧
  (with_ (temp_filename codec data default_mode) block fs).2 !! path = None.

(** Sample blocks: one reads the file back, one removes it, one fails. *)
Definition read_block : string → M filesystem string :=
  λ path fs, (Ret (default "" (fs !! path)), fs).
Definition removing_block : string → M filesystem unit :=
  λ path, unlink path.
Definition raising_block : string → M filesystem unit :=
  λ _, raise (Exn ValueError_ [VStr "bad"] None).

End TempFilename.

(** ** [cached_property] *)

Module CachedProperty.

(** What the [__setattr__] of a class does with a name, a value and the
    dictionaries. *)
Abbreviation setattr_method :=
  (string → value → gmap obj (gmap string value) →
   outcome unit * gmap obj (gmap string value)).

(** The interpreter state: the instance dictionaries ([__dict__] of every
    object), the log of the calls [self.method(inst)] made so far, each
    with the name of the called function and its argument, and, for the
    objects whose class does not leave attribute assignment to
    [object.__setattr__] on a [__dict__], what [__setattr__] does: the
    instances of a class with [__slots__] and of a frozen dataclass raise,
    the instances of a class that defines [__setattr__] do what it says. *)
Record world := World {
  heap : gmap obj (gmap string value);
  calls : list (string * obj);
  setattr_of : gmap obj setattr_method
}.

(** A Python function of one argument (the computation handed to the
    descriptor): it reads and writes the instance dictionaries and returns
    or raises. *)
Record callable := Callable {
  __name__ : string;
  __doc__ : option string;
  __code__ : obj → gmap obj (gmap string value) →
             outcome value * gmap obj (gmap string value)
}.

(** [self.method(inst)] *)
Definition call (f : callable) (inst : obj) : M world value :=
  λ w, let (r, h) := __code__ f inst (heap w) in
       (r, World h (calls w ++ [(__name__ f, inst)]) (setattr_of w)).

(** [setattr(inst, name, value)]: the [__setattr__] of the class of the
    object; on a plain object it writes the [__dict__]. *)
Definition setattr (inst : obj) (name : string) (v : value) : M world unit :=
  λ w, match setattr_of w !! inst with
       | None =>
           (Ret tt, World (<[inst := <[name := v]> (heap w !!! inst)]> (heap w))
                          (calls w) (setattr_of w))
       | Some f =>
           let (r, h) := (f : setattr_method) name v (heap w) in
           (r, World h (calls w) (setattr_of w))
       end.

Record cached_property := CachedProp {
  method : callable;
  name : string;
  doc : option string
}.

(** [__init__]: [self.name = name or method.__name__]; [None] and the empty
    string are both false. *)
Definition __init__ (method : callable) (name : option string) : cached_property :=
  {| method := method;
     name := match name with
             | Some n => if bool_decide (n = "") then __name__ method else n
             | None => __name__ method
             end;
     doc := __doc__ method |}.

(** The attributes of a class: memoizing descriptors and plain values. *)
Inductive class_attr :=
| ClsDescr (d : cached_property)
| ClsPlain (v : value).

(** [__get__] answers either the descriptor itself or a value. *)
Definition __get__ (self : cached_property) (inst : option obj)
    (cls : gmap string class_attr) : M world (cached_property + value) :=
  match inst with
  | None => mret (inl self)
  | Some i =>
      result ← call (method self) i;
      setattr i (name self) result;;
      mret (inr result)
  end.

(** Python's attribute lookup [inst.attr] for an instance of class [cls]
    (the classes here hold no data descriptor): the instance dictionary
    first, then the class, whose descriptors are asked through [__get__]. *)
Definition getattr (cls : gmap string class_attr) (inst : obj) (attr : string)
    : M world (cached_property + value) :=
  λ w, match (heap w !!! inst) !! attr with
       | Some v => ret (inr v) w
       | None =>
           match cls !! attr with
           | Some (ClsDescr d) => __get__ d (Some inst) cls w
           | Some (ClsPlain v) => ret (inr v) w
           | None => raise (Exn AttributeError_ [VStr attr] None) w
           end
       end.

(** [cls.attr], the lookup through the class itself. *)
Definition getattr_type (cls : gmap string class_attr) (attr : string)
    : M world (cached_property + value) :=
  match cls !! attr with
  | Some (ClsDescr d) => __get__ d None cls
  | Some (ClsPlain v) => ret (inr v)
  | None => raise (Exn AttributeError_ [VStr attr] None)
  end.

(** The property of the memoized attribute [attr] of instance [inst]: the
    first access returns the value [v] computed by the method from the
    state at hand, with exactly one call, of the method on [inst]; the value
    is then in the instance dictionary under the descriptor's name; the
    second access returns [v] again and calls nothing. *)
Definition memoized (cls : gmap string class_attr) (d : cached_property)
    (inst : obj) (attr : string) (w : world) : Prop :=
  ∃ v w1 w2,
    (__code__ (method d) inst (heap w)).1 = Ret v ∧
    getattr cls inst attr w = (Ret (inr v), w1) ∧
    calls w1 = calls w ++ [(__name__ (method d), inst)] ∧
    (heap w1 !!! inst) !! name d = Some v ∧
    getattr cls inst attr w1 = (Ret (inr v), w2) ∧
    calls w2 = calls w1.

(** *** Sample classes *)

(** The class of the scenario of the specification: the computation
    returns 42 and is bound to the attribute [answer]. *)
Definition answer_method : callable :=
  Callable "answer" None (λ _ h, (Ret (VInt 42), h)).
Definition answer_class : gmap string class_attr :=
  {[ "answer" := ClsDescr (__init__ answer_method None) ]}.

(** The same computation under a function name that is not the attribute
    name, [bar = cached_property(compute)]: the result is stored under
    [compute], the attribute [bar] of the instance stays with the class. *)
Definition compute_method : callable :=
  Callable "compute" None (λ _ h, (Ret (VInt 42), h)).
Definition bar_class : gmap string class_attr :=
  {[ "bar" := ClsDescr (__init__ compute_method None) ]}.

(** An instance that was given the attribute [answer] by hand. *)
Definition preset_world : world :=
  World {[ 0%nat := {[ "answer" := VInt 7 ]} ]} [] ∅.

(** A computation that raises. *)
Definition failing_method : callable :=
  Callable "answer" None (λ _ h, (Raise (Exn ValueError_ [VStr "no answer"] None), h)).
Definition failing_class : gmap string class_attr :=
  {[ "answer" := ClsDescr (__init__ failing_method None) ]}.

(** A class written with the decorator, and a state with two instances
    of it:
    [@cached_property
     def total(self):
         base = self.__dict__.get('base')
         if type(base) is not int: raise ValueError('no base')
         return base + 1]
    with the documentation [base plus one]. *)
Definition total_method : callable :=
  Callable "total" (Some "base plus one")
    (λ inst h, (match (h !!! inst) !! "base" with
                | Some (VInt n) => Ret (VInt (n + 1))
                | _ => Raise (Exn ValueError_ [VStr "no base"] None)
                end, h)).
Definition total_class : gmap string class_attr :=
  {[ "total" := ClsDescr (__init__ total_method None) ]}.
Definition two_instances : world :=
  World {[ 0%nat := {[ "base" := VInt 1 ]}; 1%nat := {[ "base" := VInt 10 ]} ]} [] ∅.

(** A state with one plain instance and nothing called yet. *)
Definition fresh_world : world := World ∅ [] ∅.

(** [object.__setattr__] on an instance of a class [Settings] that has
    [__slots__ = ()] and the attributes [cls]: no name can be set, and the
    text of the [AttributeError] tells whether the class has the name. *)
Definition slots_setattr (cls : gmap string class_attr) : setattr_method :=
  λ n _ h,
    (Raise (Exn AttributeError_
              [VStr (match cls !! n with
                     | Some _ => "'Settings' object attribute '" +:+ n +:+
                                 "' is read-only"
                     | None => "'Settings' object has no attribute '" +:+ n +:+ "'"
                     end)]
              None), h).

(** A state whose instance 0 belongs to such a class, with the attributes
    of [answer_class]; a state whose instance 0 has a base that is no
    number. *)
Definition slots_world : world :=
  World ∅ [] {[ 0%nat := slots_setattr answer_class ]}.
Definition no_base_world : world :=
  World {[ 0%nat := {[ "base" := VNone ]} ]} [] ∅.

End CachedProperty.

(** ** [log_exceptions_warnings] *)

Module LogExceptionsWarnings.

(** *** The part of the [logging] and [warnings] modules the decorator uses *)

(** The severities of [logging] that the decorator logs at. *)
Definition ERROR : Z := 40.
Definition WARNING : Z := 30.

(** A call of a logger method: the name given to [logging.getLogger], the
    severity of the method and the message object. *)
Record log_record := LogRecord {
  logger_name : string;
  levelno : Z;
  msg : value
}.

(** [warnings.WarningMessage]; [message] is the text [str(w.message)]. *)
Record warning_message := WarningMessage {
  message : string;
  category : pyclass;
  filename : string;
  lineno : Z
}.

Inductive action :=
| ActError | ActIgnore | ActAlways | ActDefault | ActModule | ActOnce.

(** An entry of [warnings.filters] as [simplefilter] installs it: an action,
    a category and a line number (0 for every line). *)
Record filter := Filter {
  f_action : action;
  f_category : string;
  f_lineno : Z
}.

#[global] Instance action_eq_dec : EqDecision action.
Proof. solve_decision. Defined.
#[global] Instance filter_eq_dec : EqDecision filter.
Proof. solve_decision. Defined.

(** The state of the interpreter that the decorator can touch.
    - [filters], [filters_version], [registries] (the [__warningregistry__]
      of each module, with the version it was filled under) and
      [onceregistry] belong to [warnings];
    - [showwarning] is the hook that receives the warnings that pass the
      filters: the default one, which prints to [stderr], or the [append]
      of the list object [l] made by [catch_warnings(record=True)];
    - [lists] holds those list objects;
    - [log] is what the loggers have received;
    - [warn_calls] lists every call of [warnings.warn], in order. *)
Record world := World {
  filters : list filter;
  filters_version : nat;
  registries : gmap string (nat * gset (string * string * Z));
  onceregistry : gset (string * string);
  showwarning : option nat;
  lists : gmap nat (list warning_message);
  stderr : list warning_message;
  log : list log_record;
  warn_calls : list warning_message
}.

Definition set_filters (f : list filter) (v : nat) (w : world) : world :=
  World f v (registries w) (onceregistry w) (showwarning w) (lists w)
        (stderr w) (log w) (warn_calls w).
Definition set_registry (module : string) (r : nat * gset (string * string * Z))
    (w : world) : world :=
  World (filters w) (filters_version w) (<[module := r]> (registries w))
        (onceregistry w) (showwarning w) (lists w) (stderr w) (log w)
        (warn_calls w).
Definition set_onceregistry (o : gset (string * string)) (w : world) : world :=
  World (filters w) (filters_version w) (registries w) o (showwarning w)
        (lists w) (stderr w) (log w) (warn_calls w).
Definition set_showwarning (h : option nat) (w : world) : world :=
  World (filters w) (filters_version w) (registries w) (onceregistry w) h
        (lists w) (stderr w) (log w) (warn_calls w).
Definition set_list (l : nat) (c : list warning_message) (w : world) : world :=
  World (filters w) (filters_version w) (registries w) (onceregistry w)
        (showwarning w) (<[l := c]> (lists w)) (stderr w) (log w)
        (warn_calls w).
Definition add_stderr (m : warning_message) (w : world) : world :=
  World (filters w) (filters_version w) (registries w) (onceregistry w)
        (showwarning w) (lists w) (stderr w ++ [m]) (log w) (warn_calls w).
Definition add_log (r : log_record) (w : world) : world :=
  World (filters w) (filters_version w) (registries w) (onceregistry w)
        (showwarning w) (lists w) (stderr w) (log w ++ [r]) (warn_calls w).
Definition add_warn_call (m : warning_message) (w : world) : world :=
  World (filters w) (filters_version w) (registries w) (onceregistry w)
        (showwarning w) (lists w) (stderr w) (log w) (warn_calls w ++ [m]).

(** [logging.getLogger(name).error(msg)] and [.warning(msg)] *)
Definition logger_error (name : string) (m : value) : M world unit :=
  modify (add_log (LogRecord name ERROR m)).
Definition logger_warning (name : string) (m : value) : M world unit :=
  modify (add_log (LogRecord name WARNING m)).

(** [list.remove(x)]: the first occurrence, if any. *)
Fixpoint remove_first (x : filter) (l : list filter) : list filter :=
  match l with
  | [] => []
  | y :: l' => if decide (x = y) then l' else y :: remove_first x l'
  end.

(** [warnings.simplefilter(action, category)]: the entry moves to the front
    of the filters. *)
Definition simplefilter (a : action) (cat : pyclass) : M world unit :=
  modify (λ w, set_filters (Filter a (cls_name cat) 0 ::
                              remove_first (Filter a (cls_name cat) 0) (filters w))
                           (S (filters_version w)) w).

(** The action of the first filter that matches, [default] when none does. *)
Fixpoint find_action (fs : list filter) (cat : pyclass) (line : Z) : action :=
  match fs with
  | [] => ActDefault
  | f :: fs' =>
      if issubclass cat (f_category f) &&
         (bool_decide (f_lineno f = 0) || bool_decide (line = f_lineno f))
      then f_action f
      else find_action fs' cat line
  end.

(** The hook call [_showwarnmsg(msg)]. *)
Definition show (m : warning_message) : M world unit :=
  modify (λ w, match showwarning w with
               | None => add_stderr m w
               | Some l => set_list l (lists w !!! l ++ [m]) w
               end).

(** [warnings.warn_explicit] for a warning issued at [filename], [lineno]
    of the module [module]. *)
Definition warn_explicit (m : warning_message) (module : string) : M world unit :=
  λ w,
    let r0 := default (0%nat, ∅) (registries w !! module) in
    let keys := if decide (r0.1 = filters_version w) then r0.2 else ∅ in
    let reg (k : gset (string * string * Z)) := set_registry module (filters_version w, k) in
    let key := (message m, cls_name (category m), lineno m) in
    if decide (key ∈ keys) then (Ret tt, reg keys w) else
    match find_action (filters w) (category m) (lineno m) with
    | ActIgnore => (Ret tt, reg keys w)
    | ActError => (Raise (Exn (category m) [VStr (message m)] None), reg keys w)
    | ActOnce =>
        let oncekey := (message m, cls_name (category m)) in
        if decide (oncekey ∈ onceregistry w)
        then (Ret tt, reg ({[key]} ∪ keys) w)
        else show m (set_onceregistry ({[oncekey]} ∪ onceregistry w)
                                      (reg ({[key]} ∪ keys) w))
    | ActAlways => show m (reg keys w)
    | ActModule =>
        let altkey := (message m, cls_name (category m), 0) in
        if decide (altkey ∈ {[key]} ∪ keys)
        then (Ret tt, reg ({[key]} ∪ keys) w)
        else show m (reg ({[altkey]} ∪ ({[key]} ∪ keys)) w)
    | ActDefault => show m (reg ({[key]} ∪ keys) w)
    end.

(** [warnings.warn(message, category)] called at [filename], [lineno] of
    [module]. *)
Definition warn (text : string) (cat : pyclass) (filename : string) (lineno : Z)
    (module : string) : M world unit :=
  modify (add_warn_call (WarningMessage text cat filename lineno));;
  if issubclass cat "Warning"
  then warn_explicit (WarningMessage text cat filename lineno) module
  else raise (Exn TypeError_ [VStr "category must be a Warning subclass"] None).

(** The context manager [warnings.catch_warnings(record=True)]: the object
    keeps the filters and the hook it found. *)
Record catch_warnings := CatchWarnings {
  saved_filters : list filter;
  saved_showwarning : option nat
}.

(** [__enter__]: the filters are copied, the hook becomes the [append] of a
    new list, which is returned. *)
Definition __enter__ : M world (catch_warnings * nat) :=
  λ w, let warn_list := fresh (dom (lists w)) in
       (Ret (CatchWarnings (filters w) (showwarning w), warn_list),
        set_showwarning (Some warn_list)
          (set_list warn_list []
             (set_filters (filters w) (S (filters_version w)) w))).

(** [__exit__]: the filters and the hook found on entry are put back. *)
Definition __exit__ (self : catch_warnings) : M world unit :=
  modify (λ w, set_showwarning (saved_showwarning self)
                 (set_filters (saved_filters self) (S (filters_version w)) w)).

(** [with warnings.catch_warnings(record=True) as warn_list: body]; the
    outcome of [body] comes with the list object. *)
Definition with_catch_warnings {A} (body : nat → M world A) : M world (nat * A) :=
  '(self, warn_list) ← __enter__;
  r ← try_finally (body warn_list) (__exit__ self);
  mret (warn_list, r).

(** [try: m except Exception as exc: handler(exc)] *)
Definition try_except_Exception {A} (m : M world A) (handler : exn → M world A)
    : M world A :=
  λ w, match m w with
       | (Raise e, w') => if isinstance e "Exception" then handler e w'
                          else (Raise e, w')
       | r => r
       end.

(** *** The decorator *)

Record pyfunction := PyFunction {
  __module__ : string;
  __name__ : string;
  __doc__ : option string;
  __call__ : list value → gmap string value → M world value
}.

(** [os.path.basename] (posixpath): what follows the last slash. *)
Fixpoint basename_from (cur p : string) : string :=
  match p with
  | EmptyString => cur
  | String c p' => if Ascii.eqb c "/" then basename_from p' p'
                   else basename_from cur p'
  end.
Definition basename (p : string) : string := basename_from p p.

Fixpoint no_slash (p : string) : bool :=
  match p with
  | EmptyString => true
  | String c p' => negb (Ascii.eqb c "/") && no_slash p'
  end.

Definition dquote : string := String (ascii_of_nat 34) EmptyString.

(** The message built in the loop of the wrapper. *)
Definition compose_msg (warn_ : warning_message) : string :=
  cls_name (category warn_) +:+ ": " +:+ dquote +:+ message warn_ +:+
  dquote +:+ " in " +:+ basename (filename warn_) +:+
  ", line: " +:+ pretty (lineno warn_) +:+ ".".

(** Where the wrapper calls [warnings.warn]. *)
Definition util_file : string := "settings_parser/util.py".
Definition util_module : string := "settings_parser.util".
Definition reraise_lineno : Z := 85.

(** [exc.args[0]] *)
Definition first_arg (exc : exn) : M world value :=
  match exc_args exc with
  | a :: _ => mret a
  | [] => raise (Exn IndexError_ [VStr "tuple index out of range"] (Some exc))
  end.

(** The [except] clause of the wrapper. *)
Definition handler (function : pyfunction) (exc : exn) : M world (nat * value) :=
  a ← first_arg exc;
  logger_error (__module__ function) a;;
  raise exc.

(** The [for] loop of the wrapper. *)
Fixpoint report (function : pyfunction) (warn_list : list warning_message)
    : M world unit :=
  match warn_list with
  | [] => mret tt
  | warn_ :: rest =>
      let msg := compose_msg warn_ in
      logger_warning (__module__ function) (VStr msg);;
      warn msg (category warn_) util_file reraise_lineno util_module;;
      report function rest
  end.

(** The function [wrapper] of the decorator.  The loop reads the list
    object made by [__enter__]; once [__exit__] has run no hook appends to
    it, the list being new. *)
Definition wrapper (function : pyfunction) (args : list value)
    (kwargs : gmap string value) : M world value :=
  '(warn_list, ret) ←
    try_except_Exception
      (with_catch_warnings (λ _,
         simplefilter ActAlways Warning_;;
         __call__ function args kwargs))
      (handler function);
  ws ← (λ w, (Ret (lists w !!! warn_list), w));
  report function ws;;
  mret ret.

(** The decorator; [functools.wraps] copies the names and the
    documentation of the function to the wrapper. *)
Definition log_exceptions_warnings (function : pyfunction) : pyfunction :=
  {| __module__ := __module__ function;
     __name__ := __name__ function;
     __doc__ := __doc__ function;
     __call__ := wrapper function |}.

(** *** The states of a wrapped call *)

(** The list object that a call of the wrapper from [w] records into. *)
Definition warn_list_of (w : world) : nat := fresh (dom (lists w)).

(** The state in which the wrapped function starts: inside the capture,
    after [simplefilter('always')]. *)
Definition inside (w : world) : world :=
  ((__enter__ ≫= λ _, simplefilter ActAlways Warning_) w).2.

(** The state after the capture scope, entered from [w], is left from
    [w1]. *)
Definition leave (w w1 : world) : world :=
  (__exit__ (CatchWarnings (filters w) (showwarning w)) w1).2.

(** The record and the warning that the loop makes of a captured warning. *)
Definition logged (function : pyfunction) (warn_ : warning_message) : log_record :=
  LogRecord (__module__ function) WARNING (VStr (compose_msg warn_)).
Definition reissued (warn_ : warning_message) : warning_message :=
  WarningMessage (compose_msg warn_) (category warn_) util_file reraise_lineno.

(** The fields of the state that a warning may not touch. *)
Definition same_frame (w w' : world) : Prop :=
  filters w' = filters w ∧ filters_version w' = filters_version w ∧
  showwarning w' = showwarning w ∧ log w' = log w ∧
  warn_calls w' = warn_calls w.

(** A function that only uses the loggers: its outcome and what it logs
    depend on the log alone, and it leaves the rest of the state alone. *)
Definition set_log (l : list log_record) (w : world) : world :=
  World (filters w) (filters_version w) (registries w) (onceregistry w)
        (showwarning w) (lists w) (stderr w) l (warn_calls w).
Definition uses_only_loggers (function : pyfunction) (args : list value)
    (kwargs : gmap string value) : Prop :=
  ∃ f : list log_record → outcome value * list log_record,
    ∀ w, __call__ function args kwargs w = ((f (log w)).1, set_log (f (log w)).2 w).

(** *** Sample functions and a sample state *)

Definition world0 : world := World [] 1 ∅ ∅ None ∅ [] [] [].

Definition bad_value : warning_message :=
  WarningMessage "bad value" ConfigWarning "/home/user/settings.py" 12.

(** [def load(): warnings.warn('bad value', ConfigWarning); return 1] *)
Definition warns_once : pyfunction :=
  PyFunction "settings" "load" None
    (λ _ _, warn "bad value" ConfigWarning "/home/user/settings.py" 12 "settings";;
            mret (VInt 1)).

(** [def seven(): return 7] *)
Definition quiet : pyfunction :=
  PyFunction "settings" "seven" None (λ _ _, mret (VInt 7)).

(** [def check(): raise ConfigError('wrong section')] *)
Definition fails : pyfunction :=
  PyFunction "settings" "check" None
    (λ _ _, raise (Exn ConfigError [VStr "wrong section"] None)).

(** [def check(): raise ConfigError()] *)
Definition fails_bare : pyfunction :=
  PyFunction "settings" "check" None (λ _ _, raise (Exn ConfigError [] None)).

(** [def load(): warnings.warn('bad value', ConfigWarning);
    raise ConfigError('wrong section')] *)
Definition warns_then_fails : pyfunction :=
  PyFunction "settings" "load" None
    (λ _ _, warn "bad value" ConfigWarning "/home/user/settings.py" 12 "settings";;
            raise (Exn ConfigError [VStr "wrong section"] None)).

(** The statement that no captured warning of a call is dropped: each is
    in the log and among the calls of [warnings.warn] afterwards. *)
Definition never_dropped (function : pyfunction) (args : list value)
    (kwargs : gmap string value) (w : world) : Prop :=
  let w1 := (__call__ function args kwargs (inside w)).2 in
  let w' := (wrapper function args kwargs w).2 in
  ∀ warn_, warn_ ∈ lists w1 !!! warn_list_of w →
    logged function warn_ ∈ log w' ∧ reissued warn_ ∈ warn_calls w'.

(** [def wait(): raise KeyboardInterrupt()] *)
Definition interrupted : pyfunction :=
  PyFunction "settings" "wait" None (λ _ _, raise (Exn KeyboardInterrupt_ [] None)).

(** [def seven(): logging.getLogger('settings').warning('seven'); return 7] *)
Definition logs_and_returns : pyfunction :=
  PyFunction "settings" "seven" None
    (λ _ _, logger_warning "settings" (VStr "seven");; mret (VInt 7)).

(** [def load(): warnings.warn('bad value', ConfigWarning);
    warnings.warn('old key', DeprecationWarning); return 1] *)
Definition old_key : warning_message :=
  WarningMessage "old key" DeprecationWarning_ "/home/user/settings.py" 20.
Definition warns_twice : pyfunction :=
  PyFunction "settings" "load" None
    (λ _ _, warn "bad value" ConfigWarning "/home/user/settings.py" 12 "settings";;
            warn "old key" DeprecationWarning_ "/home/user/settings.py" 20 "settings";;
            mret (VInt 1)).

(** States whose filters turn every warning into an error, drop every
    warning, show every warning. *)
Definition error_world : world :=
  World [Filter ActError "Warning" 0] 1 ∅ ∅ None ∅ [] [] [].
Definition ignore_world : world :=
  World [Filter ActIgnore "Warning" 0] 1 ∅ ∅ None ∅ [] [] [].
Definition always_world : world :=
  World [Filter ActAlways "Warning" 0] 1 ∅ ∅ None ∅ [] [] [].

(** [def count(): return len(warnings.filters)] *)
Definition counts_filters : pyfunction :=
  PyFunction "settings" "count" None
    (λ _ _ w, (Ret (VInt (Z.of_nat (length (filters w)))), w)).

(** The statement that the wrapped call and the plain call from the same
    state give the same outcome and the same log. *)
Definition agrees_with_plain_call (function : pyfunction) (args : list value)
    (kwargs : gmap string value) (w : world) : Prop :=
  (wrapper function args kwargs w).1 = (__call__ function args kwargs w).1 ∧
  log (wrapper function args kwargs w).2 = log (__call__ function args kwargs w).2.

(** The registry of the module of the decorator holds nothing that counts:
    it is out of date or empty. *)
Definition registry_clear (w : world) : Prop :=
  ∀ r, registries w !! util_module = Some r →
       r.1 ≠ filters_version w ∨ r.2 = ∅.

(** A stretch of a run that issues no warning and leaves the state of
    [warnings] alone: from [w] to [w'] only the log and [stderr] may have
    changed. *)
Definition no_warning_between (w w' : world) : Prop :=
  filters w' = filters w ∧ filters_version w' = filters_version w ∧
  registries w' = registries w ∧ onceregistry w' = onceregistry w ∧
  showwarning w' = showwarning w ∧ lists w' = lists w ∧
  warn_calls w' = warn_calls w.

(** [def load(): log = logging.getLogger('settings'); log.warning('loading');
    warnings.warn('bad value', ConfigWarning); log.warning('loaded');
    return 1] *)
Definition logs_and_warns : pyfunction :=
  PyFunction "settings" "load" None
    (λ _ _, logger_warning "settings" (VStr "loading");;
            warn "bad value" ConfigWarning "/home/user/settings.py" 12 "settings";;
            logger_warning "settings" (VStr "loaded");;
            mret (VInt 1)).

End LogExceptionsWarnings.

(** ** [console_logger_level] and [no_logging] *)

Module LoggingControl.

Definition CRITICAL : Z := 50.
Definition NOTSET : Z := 0.

(** A handler object: [logging.StreamHandler] (and its subclasses) has a
    [stream], itself an object; other handlers have none. *)
Inductive handler_class :=
| StreamHandler (stream : obj)
| OtherHandler.

Record handler := Handler {
  h_class : handler_class;
  level : Z
}.

(** The global state of [logging] and [sys]: the handler objects, the list
    [logging.getLogger().handlers], the threshold set by [logging.disable]
    and the object [sys.stdout]. *)
Record logging := Logging {
  objects : gmap obj handler;
  handlers : list obj;
  disable : Z;
  stdout : obj
}.

(** [handler.setLevel(level)] *)
Definition setLevel (h : obj) (lvl : Z) : M logging unit :=
  modify (λ w, Logging (alter (λ hd, Handler (h_class hd) lvl) h (objects w))
                       (handlers w) (disable w) (stdout w)).

(** [logging.disable(level)] *)
Definition logging_disable (lvl : Z) : M logging unit :=
  modify (λ w, Logging (objects w) (handlers w) lvl (stdout w)).

(** [isinstance(handler, logging.StreamHandler)] and
    [handler.stream == sys.stdout] *)
Definition is_console (w : logging) (h : obj) : bool :=
  match objects w !! h with
  | Some (Handler (StreamHandler s) _) => bool_decide (s = stdout w)
  | _ => false
  end.

(** The handler at which the loop of [console_logger_level] stops. *)
Definition console_handler (w : logging) : option obj :=
  head (filter (λ h, is_console w h = true) (handlers w)).

(** The generator [console_logger_level(level)]; its local variables are
    the handler found and [old_level], when there is a console handler.
    There is no [try] around the [yield]: an exception thrown in leaves the
    generator at once. *)
Definition console_logger_level (lvl : Z)
    : context_manager logging value (option (obj * Z)) :=
  ContextManager
    (λ w, match console_handler w with
          | Some h =>
              let old_level := default NOTSET (level <$> objects w !! h) in
              (setLevel h lvl;; mret (VNone, Some (h, old_level))) w
          | None => (Ret (VNone, None), w)
          end)
    (λ l, match l with
          | Some (h, old_level) => setLevel h old_level
          | None => mret tt
          end)
    (λ _ exc, raise exc).

(** The generator [no_logging()], which has no local variable. *)
Definition no_logging : context_manager logging value unit :=
  ContextManager
    (logging_disable CRITICAL;; mret (VNone, tt))
    (λ _, logging_disable NOTSET)
    (λ _ exc, raise exc).

(** The statement that a scope leaves the logging state as it found it. *)
Definition restores {L A} (cm : context_manager logging value L)
    (block : value → M logging A) (w : logging) : Prop :=
  (with_ cm block w).2 = w.

(** Sample states: a console handler at level 20 next to a file handler;
    the same with logging disabled up to WARNING.  Sample blocks. *)
Definition console_state : logging :=
  Logging {[ 1%nat := Handler (StreamHandler 7%nat) 20;
             2%nat := Handler (StreamHandler 8%nat) 10 ]}
          [2%nat; 1%nat] NOTSET 7%nat.
Definition quiet_state : logging :=
  Logging (objects console_state) (handlers console_state) 30 7%nat.
Definition pass_block : value → M logging value := λ _, mret VNone.
Definition failing_block : value → M logging value :=
  λ _, raise (Exn ValueError_ [VStr "bad"] None).

(** A state with no console handler: a handler on another stream and one
    with no stream.  A state with two console handlers.  A block that sets
    the level of handler 1 itself. *)
Definition file_only_state : logging :=
  Logging {[ 2%nat := Handler (StreamHandler 8%nat) 10;
             3%nat := Handler OtherHandler 0 ]}
          [2%nat; 3%nat] NOTSET 7%nat.
Definition two_consoles_state : logging :=
  Logging {[ 1%nat := Handler (StreamHandler 7%nat) 20;
             4%nat := Handler (StreamHandler 7%nat) 30 ]}
          [1%nat; 4%nat] NOTSET 7%nat.
Definition meddling_block : value → M logging value :=
  λ _, setLevel 1%nat 5;; mret VNone.

(** The state in which the block of [no_logging] starts, and the one in
    which the scope ends after a block that returned in [s]. *)
Definition disabled (w : logging) : logging :=
  Logging (objects w) (handlers w) CRITICAL (stdout w).
Definition enabled (s : logging) : logging :=
  Logging (objects s) (handlers s) NOTSET (stdout s).

End LoggingControl.

(** * Verified properties *)

(** ** The monad *)

Lemma bind_ret_l {S A B} (m : M S A) (k : A → M S B) s a s' :
  m s = (Ret a, s') → (m ≫= k) s = k a s'.
Proof. intros H. unfold mbind, M_bind, bind. by rewrite H. Qed.

Lemma bind_raise_l {S A B} (m : M S A) (k : A → M S B) s e s' :
  m s = (Raise e, s') → (m ≫= k) s = (Raise e, s').
Proof. intros H. unfold mbind, M_bind, bind. by rewrite H. Qed.

(** ** Facts about [cached_property] *)

Section CachedPropertyFacts.
Import CachedProperty.

(** What [__get__] does on a plain instance when the method returns. *)
Lemma get_instance_returns self i cls w v h :
  setattr_of w !! i = None →
  __code__ (method self) i (heap w) = (Ret v, h) →
  __get__ self (Some i) cls w =
    (Ret (inr v),
     World (<[i := <[name self := v]> (h !!! i)]> h)
           (calls w ++ [(__name__ (method self), i)]) (setattr_of w)).
Proof.
  intros Hplain Hc. unfold __get__, call, setattr, mbind, M_bind, bind,
    mret, M_ret, ret.
  rewrite Hc. simpl. by rewrite Hplain.
Qed.

(** What [__get__] does on an instance whose [__setattr__] raises: the
    method has been called, nothing is cached and the caller gets the
    exception of the assignment. *)
Lemma get_instance_unwritable self i cls w v h f e h' :
  setattr_of w !! i = Some f →
  __code__ (method self) i (heap w) = (Ret v, h) →
  f (name self) v h = (Raise e, h') →
  __get__ self (Some i) cls w =
    (Raise e, World h' (calls w ++ [(__name__ (method self), i)]) (setattr_of w)).
Proof.
  intros Hf Hc He. unfold __get__, call, setattr, mbind, M_bind, bind.
  rewrite Hc. simpl. by rewrite Hf, He.
Qed.

(** An exception of the method goes through [__get__]; nothing is stored. *)
Lemma get_instance_raises self i cls w e h :
  __code__ (method self) i (heap w) = (Raise e, h) →
  __get__ self (Some i) cls w =
    (Raise e, World h (calls w ++ [(__name__ (method self), i)]) (setattr_of w)).
Proof.
  intros Hc. unfold __get__, call, mbind, M_bind, bind. by rewrite Hc.
Qed.

(** An attribute present in the instance dictionary hides the class. *)
Lemma getattr_instance_dict cls i attr w v :
  (heap w !!! i) !! attr = Some v →
  getattr cls i attr w = (Ret (inr v), w).
Proof. intros H. unfold getattr. by rewrite H. Qed.

(** C1 (amended).  When the descriptor sits in the class under its own
    configured name, the instance is a plain object (attribute assignment
    writes its dictionary) that has no attribute of that name yet, and the
    method returns a value, two accesses of the attribute call the method
    exactly once: the first access calls it on the instance, stores the
    result in the instance dictionary under the configured name and returns
    it; the second access returns the stored value and calls nothing. *)
Theorem cached_property_memoizes cls d i attr w v h :
  cls !! attr = Some (ClsDescr d) →
  name d = attr →
  setattr_of w !! i = None →
  (heap w !!! i) !! attr = None →
  __code__ (method d) i (heap w) = (Ret v, h) →
  memoized cls d i attr w.
Proof.
  intros Hcls Hname Hplain Hfresh Hc.
  set (w1 := World (<[i := <[name d := v]> (h !!! i)]> h)
                   (calls w ++ [(__name__ (method d), i)]) (setattr_of w)).
  assert (Hstored : (heap w1 !!! i) !! name d = Some v).
  { simpl. rewrite lookup_total_insert_eq. apply lookup_insert_eq. }
  exists v, w1, w1. repeat split.
  - by rewrite Hc.
  - unfold getattr. rewrite Hfresh, Hcls. by apply get_instance_returns.
  - done.
  - apply getattr_instance_dict. by rewrite <- Hname.
Qed.

Lemma cached_property_memoizes_witness :
  memoized answer_class (__init__ answer_method None) 0%nat "answer" fresh_world.
Proof.
  apply (cached_property_memoizes answer_class (__init__ answer_method None)
           0%nat "answer" fresh_world (VInt 42) ∅); reflexivity.
Defined.

(** C1 as stated fails, in four ways: with the descriptor bound to
    [bar] and named [compute], the second access of [bar] calls the method
    again; an instance that already has the attribute gets that value and
    the method is not called; a method that raises has no result to store;
    on an instance of a class with [__slots__] the assignment raises after
    the method was called, so that nothing is stored. *)
Lemma cached_property_not_always_memoized :
  ¬ memoized bar_class (__init__ compute_method None) 0%nat "bar" fresh_world ∧
  ¬ memoized answer_class (__init__ answer_method None) 0%nat "answer" preset_world ∧
  ¬ memoized failing_class (__init__ failing_method None) 0%nat "answer" fresh_world ∧
  ¬ memoized answer_class (__init__ answer_method None) 0%nat "answer" slots_world.
Proof.
  split_and!.
  - intros (v & w1 & w2 & _ & H1 & _ & _ & H2 & Hcalls).
    vm_compute in H1. injection H1 as _ <-.
    vm_compute in H2. injection H2 as _ <-.
    discriminate Hcalls.
  - intros (v & w1 & w2 & H0 & H1 & _).
    vm_compute in H0, H1. injection H0 as <-. discriminate H1.
  - intros (v & w1 & w2 & H0 & _). discriminate H0.
  - intros (v & w1 & w2 & _ & H1 & _).
    vm_compute in H1. discriminate H1.
Qed.

(** On the instance with [__slots__] every access calls the method and
    raises the [AttributeError] of the assignment. *)
Example slots_scenario :
  let e := Exn AttributeError_
             [VStr "'Settings' object attribute 'answer' is read-only"] None in
  ∃ w1 w2,
    getattr answer_class 0%nat "answer" slots_world = (Raise e, w1) ∧
    getattr answer_class 0%nat "answer" w1 = (Raise e, w2) ∧
    calls w2 = [("answer", 0%nat); ("answer", 0%nat)] ∧ heap w2 = ∅.
Proof. eexists _, _. split_and!; vm_compute; reflexivity. Qed.

(** The scenario of the specification: the first access of [answer]
    returns 42 after one call, 42 is then in the instance dictionary, and
    the second access changes nothing. *)
Example answer_scenario :
  ∃ w1, getattr answer_class 0%nat "answer" fresh_world = (Ret (inr (VInt 42)), w1) ∧
        (heap w1 !!! 0%nat) !! "answer" = Some (VInt 42) ∧
        calls w1 = [("answer", 0%nat)] ∧
        getattr answer_class 0%nat "answer" w1 = (Ret (inr (VInt 42)), w1).
Proof. eexists. split_and!; vm_compute; reflexivity. Qed.

(** With the name mismatch each access of [bar] calls the method. *)
Example bar_scenario :
  calls ((getattr bar_class 0%nat "bar" ≫= λ _, getattr bar_class 0%nat "bar")
           fresh_world).2 = [("compute", 0%nat); ("compute", 0%nat)].
Proof. vm_compute. reflexivity. Qed.

(** X3.  An instance that already has an attribute of that name, set in
    some other way, keeps it: every access returns that value and the
    method is never called. *)
Lemma cached_property_shadowed cls i attr w v :
  (heap w !!! i) !! attr = Some v →
  ∃ w', (getattr cls i attr ≫= λ _, getattr cls i attr) w = (Ret (inr v), w') ∧
        calls w' = calls w.
Proof.
  intros H. exists w. split; [|done].
  erewrite bind_ret_l by by apply getattr_instance_dict.
  by apply getattr_instance_dict.
Qed.

(** X4.  The exception of a method that raises goes to the caller and
    [__get__] stores nothing: the dictionaries are as the method left
    them.  Unless the method itself had stored the attribute before it
    raised, the next access calls the method again. *)
Theorem cached_property_raising_recomputes cls d i attr w e h :
  cls !! attr = Some (ClsDescr d) →
  (heap w !!! i) !! attr = None →
  __code__ (method d) i (heap w) = (Raise e, h) →
  ∃ w1, getattr cls i attr w = (Raise e, w1) ∧
        heap w1 = h ∧
        calls w1 = calls w ++ [(__name__ (method d), i)] ∧
        ((h !!! i) !! attr = None →
         calls (getattr cls i attr w1).2 =
           calls w ++ [(__name__ (method d), i); (__name__ (method d), i)]) ∧
        (∀ v, (h !!! i) !! attr = Some v →
              getattr cls i attr w1 = (Ret (inr v), w1)).
Proof.
  intros Hcls Hfresh Hc.
  eexists. split_and!.
  - unfold getattr. rewrite Hfresh, Hcls.
    exact (get_instance_raises d i cls w e h Hc).
  - done.
  - done.
  - intros Hh. unfold getattr. simpl. rewrite Hh, Hcls.
    unfold __get__, call, setattr, mbind, M_bind, bind. simpl.
    destruct (__code__ (method d) i h) as [[v'|e'] h']; simpl.
    + destruct (setattr_of w !! i) as [f|]; simpl.
      * destruct (f (name d) v' h') as [[] ?]; simpl; by rewrite <- app_assoc.
      * by rewrite <- app_assoc.
    + by rewrite <- app_assoc.
  - intros v Hv. by apply getattr_instance_dict.
Qed.

(** [Foo.bar] reaches [__get__] with no instance. *)
Lemma getattr_type_descriptor cls attr d w :
  cls !! attr = Some (ClsDescr d) →
  getattr_type cls attr w = (Ret (inl d), w).
Proof. intros H. unfold getattr_type. by rewrite H. Qed.

(** C7.  Asked through the class (no instance), [__get__] returns the
    descriptor itself, not a value, and leaves the state as it is: the
    method is not called.  So does the lookup [cls.attr] on a class that
    holds the descriptor under [attr]. *)
Theorem get_on_class_returns_self self cls attr w :
  __get__ self None cls w = (Ret (inl self), w) ∧
  getattr_type (<[attr := ClsDescr self]> cls) attr w = (Ret (inl self), w) ∧
  calls (getattr_type (<[attr := ClsDescr self]> cls) attr w).2 = calls w.
Proof.
  assert (H : getattr_type (<[attr := ClsDescr self]> cls) attr w =
              (Ret (inl self), w)).
  { unfold getattr_type. by rewrite lookup_insert_eq. }
  split_and!; [done..|]. by rewrite H.
Qed.

End CachedPropertyFacts.

(** ** Facts about [log_exceptions_warnings] *)

Section LogExceptionsWarningsFacts.
Import LogExceptionsWarnings.

Lemma show_frame m w : same_frame w (show m w).2.
Proof. unfold show, modify. simpl. by destruct (showwarning w). Qed.

Lemma same_frame_trans w1 w2 w3 :
  same_frame w1 w2 → same_frame w2 w3 → same_frame w1 w3.
Proof. unfold same_frame. intros (?&?&?&?&?) (?&?&?&?&?). split_and!; congruence. Qed.

Lemma warn_explicit_frame m module w : same_frame w (warn_explicit m module w).2.
Proof.
  unfold warn_explicit.
  repeat case_match;
    first [ done
          | eapply same_frame_trans; [|apply show_frame]; done ].
Qed.

(** [warnings.warn] leaves the filters, the hook and the log alone and adds
    its own call to the calls. *)
Lemma warn_effect text cat file line module w :
  let w' := (warn text cat file line module w).2 in
  filters w' = filters w ∧ showwarning w' = showwarning w ∧ log w' = log w ∧
  warn_calls w' = warn_calls w ++ [WarningMessage text cat file line].
Proof.
  unfold warn, mbind, M_bind, bind, modify, raise. simpl.
  destruct (issubclass cat "Warning"); [|done].
  match goal with
  | |- context [warn_explicit ?m ?md ?w0] =>
      destruct (warn_explicit_frame m md w0) as (?&?&?&?&?);
      destruct (warn_explicit m md w0) as [[] ?]
  end; done.
Qed.

(** [basename] gives the last component of a path. *)
Lemma basename_from_no_slash cur p :
  no_slash p = true → basename_from cur p = cur.
Proof.
  revert cur. induction p as [|c p IH]; intros cur H; [done|].
  simpl in *. apply andb_true_iff in H as [Hc Hp].
  apply negb_true_iff in Hc. rewrite Hc. by apply IH.
Qed.

Lemma basename_from_app cur dir file :
  no_slash file = true →
  basename_from cur (dir +:+ String "/" file) = file.
Proof.
  intros H. revert cur. induction dir as [|c dir IH]; intros cur; simpl.
  - by apply basename_from_no_slash.
  - destruct (Ascii.eqb c "/"); apply IH.
Qed.

Lemma basename_path dir file :
  no_slash file = true → basename (dir +:+ String "/" file) = file.
Proof. apply basename_from_app. Qed.

Lemma basename_plain file : no_slash file = true → basename file = file.
Proof. apply basename_from_no_slash. Qed.

(** The message of the sample warning. *)
Example compose_msg_bad_value :
  compose_msg bad_value =
    "ConfigWarning: " +:+ dquote +:+ "bad value" +:+ dquote +:+
    " in settings.py, line: 12.".
Proof. reflexivity. Qed.

(** One round of the loop. *)
Lemma report_cons function a ws w :
  report function (a :: ws) w =
    match warn (compose_msg a) (category a) util_file reraise_lineno
               util_module (add_log (logged function a) w) with
    | (Ret _, w1) => report function ws w1
    | (Raise e, w1) => (Raise e, w1)
    end.
Proof. done. Qed.

(** The loop adds, in order, one record and one call for each warning it
    reaches, and touches neither the filters nor the hook. *)
Lemma report_effect function ws w :
  ∃ n, let w' := (report function ws w).2 in
    (n ≤ length ws)%nat ∧
    filters w' = filters w ∧ showwarning w' = showwarning w ∧
    log w' = log w ++ (logged function <$> take n ws) ∧
    warn_calls w' = warn_calls w ++ (reissued <$> take n ws) ∧
    ((report function ws w).1 = Ret tt → n = length ws).
Proof.
  revert w. induction ws as [|a ws IH]; intros w.
  - exists 0%nat. simpl. by rewrite !app_nil_r.
  - rewrite report_cons.
    match goal with
    | |- context [warn ?t ?c ?f ?l ?md ?w0] =>
        pose proof (warn_effect t c f l md w0) as (Hf & Hs & Hl & Hc);
        destruct (warn t c f l md w0) as [[[]|e] w1] eqn:Hw
    end; simpl in Hf, Hs, Hl, Hc.
    + destruct (IH w1) as (n & Hn & Hf' & Hs' & Hl' & Hc' & Hr).
      exists (S n). cbn zeta. split_and!.
      * simpl. lia.
      * by rewrite Hf'.
      * by rewrite Hs'.
      * rewrite Hl', Hl. by rewrite <- app_assoc.
      * rewrite Hc', Hc. by rewrite <- app_assoc.
      * intros H. simpl. by rewrite Hr.
    + exists 1%nat. cbn zeta. split_and!; try done. simpl; lia.
Qed.

(** The capture scope around the wrapped function. *)
Lemma capture_run function args kwargs w :
  with_catch_warnings
    (λ _, simplefilter ActAlways Warning_;; __call__ function args kwargs) w =
  (match (__call__ function args kwargs (inside w)).1 with
   | Ret a => Ret (warn_list_of w, a)
   | Raise e => Raise e
   end,
   leave w (__call__ function args kwargs (inside w)).2).
Proof.
  unfold with_catch_warnings, try_finally, inside, leave, mbind, M_bind, bind.
  simpl.
  by destruct (__call__ function args kwargs _) as [[] ?].
Qed.

Lemma leave_frame w w1 :
  filters (leave w w1) = filters w ∧ showwarning (leave w w1) = showwarning w ∧
  lists (leave w w1) = lists w1 ∧ log (leave w w1) = log w1 ∧
  warn_calls (leave w w1) = warn_calls w1.
Proof. done. Qed.

(** The wrapper when the function returns: the loop runs over the list. *)
Lemma wrapper_returns function args kwargs w v w1 :
  __call__ function args kwargs (inside w) = (Ret v, w1) →
  wrapper function args kwargs w =
    match report function (lists w1 !!! warn_list_of w) (leave w w1) with
    | (Ret _, w') => (Ret v, w')
    | (Raise e, w') => (Raise e, w')
    end.
Proof.
  intros H. pose proof (capture_run function args kwargs w) as Hc.
  rewrite H in Hc. simpl in Hc.
  unfold wrapper, try_except_Exception, mbind, M_bind, bind in *.
  rewrite Hc. by destruct (report _ _ _) as [[] ?].
Qed.

(** The wrapper when the function raises. *)
Lemma wrapper_raises function args kwargs w exc w1 :
  __call__ function args kwargs (inside w) = (Raise exc, w1) →
  wrapper function args kwargs w =
    if isinstance exc "Exception" then
      match exc_args exc with
      | a :: _ => (Raise exc,
                   add_log (LogRecord (__module__ function) ERROR a) (leave w w1))
      | [] => (Raise (Exn IndexError_ [VStr "tuple index out of range"] (Some exc)),
               leave w w1)
      end
    else (Raise exc, leave w w1).
Proof.
  intros H. pose proof (capture_run function args kwargs w) as Hc.
  rewrite H in Hc. simpl in Hc.
  unfold wrapper, try_except_Exception, mbind, M_bind, bind in *.
  rewrite Hc. destruct (isinstance exc "Exception"); [|done].
  unfold handler, first_arg, mbind, M_bind, bind.
  by destruct (exc_args exc).
Qed.

(** A warning that the function issues is captured: inside the scope the
    [always] filter is in front and the registries are out of date. *)
Lemma issued_warning_is_captured text cat file line module w :
  issubclass cat "Warning" = true →
  (∀ r, registries w !! module = Some r → (r.1 ≤ filters_version w)%nat) →
  ∃ w1, warn text cat file line module (inside w) = (Ret tt, w1) ∧
        lists w1 !!! warn_list_of w = [WarningMessage text cat file line] ∧
        log w1 = log w ∧
        warn_calls w1 = warn_calls w ++ [WarningMessage text cat file line].
Proof.
  intros Hcat Hreg.
  unfold warn, mbind, M_bind, bind, modify. rewrite Hcat.
  unfold warn_explicit. cbn [message category lineno].
  match goal with
  | |- context [decide ((default ?d ?o).1 = ?v)] =>
      destruct (decide ((default d o).1 = v)) as [Heq|_]
  end.
  { exfalso. simpl in Heq.
    destruct (registries w !! module) as [r|] eqn:Hr; simpl in Heq.
    - specialize (Hreg r eq_refl). lia.
    - lia. }
  rewrite decide_False by set_solver.
  simpl. rewrite Hcat. simpl.
  eexists. split; [done|]. simpl.
  unfold warn_list_of. by rewrite !lookup_total_insert_eq.
Qed.

(** C2.  A function whose run, inside the capture, issues exactly one
    warning, with a category, a text, a file and a line, and returns: a
    stretch that issues no warning and leaves the state of [warnings]
    alone, one call of [warnings.warn], and such a stretch again, which
    ends with the value of the function.  Through the wrapper the logger
    of its module receives exactly one message more than the function
    itself has logged, of severity WARNING, that reads
    [<Category>: "<text>" in <basename>, line: <n>.]; the wrapper then
    calls [warnings.warn] once, with that message and the category of the
    warning, in a state whose filters and hook are those of the caller
    (the list of the capture, which is new, holds the first warning only):
    what the call does, and so what the wrapper ends with, is up to the
    caller. *)
Theorem one_warning_logged_and_reissued function args kwargs w text cat file line
    module v (before : M world unit) (after : M world value) a w1 :
  __call__ function args kwargs (inside w) =
    (before ≫= λ _, warn text cat file line module ≫= λ _, after) (inside w) →
  before (inside w) = (Ret tt, a) →
  no_warning_between (inside w) a →
  after (warn text cat file line module a).2 = (Ret v, w1) →
  no_warning_between (warn text cat file line module a).2 w1 →
  issubclass cat "Warning" = true →
  (∀ r, registries w !! module = Some r → (r.1 ≤ filters_version w)%nat) →
  let msg := cls_name cat +:+ ": " +:+ dquote +:+ text +:+ dquote +:+ " in " +:+
             basename file +:+ ", line: " +:+ pretty line +:+ "." in
  ∃ s,
    filters s = filters w ∧ showwarning s = showwarning w ∧ stderr s = stderr w1 ∧
    lists s = <[warn_list_of w := [WarningMessage text cat file line]]> (lists w) ∧
    log s = log w1 ++ [LogRecord (__module__ function) WARNING (VStr msg)] ∧
    warn_calls s = warn_calls w ++ [WarningMessage text cat file line] ∧
    wrapper function args kwargs w =
      (warn msg cat util_file reraise_lineno util_module ≫= λ _, mret v) s ∧
    log (wrapper function args kwargs w).2 = log s ∧
    warn_calls (wrapper function args kwargs w).2 =
      warn_calls s ++ [WarningMessage msg cat util_file reraise_lineno].
Proof.
  intros Hcall Hbefore Ha Hafter Hw1 Hcat Hreg msg.
  (* the warning goes to the list of the capture: the [always] filter is
     in front and the registry of the module is out of date *)
  assert (∃ b, warn text cat file line module a = (Ret tt, b) ∧
               lists b = <[warn_list_of w := [WarningMessage text cat file line]]>
                           (lists w) ∧
               warn_calls b = warn_calls w ++ [WarningMessage text cat file line])
    as (b & Hb & Hlists & Hcalls).
  { clear Hcall Hbefore Hafter Hw1. revert Ha.
    destruct a as [f fv rg on sh ls se lg wc]. unfold no_warning_between. simpl.
    intros (-> & -> & -> & -> & -> & -> & ->).
    unfold warn, mbind, M_bind, bind, modify. rewrite Hcat.
    unfold warn_explicit. cbn [message category lineno].
    match goal with
    | |- context [decide ((default ?d ?o).1 = ?v)] =>
        destruct (decide ((default d o).1 = v)) as [Heq|_]
    end.
    { exfalso. simpl in Heq.
      destruct (registries w !! module) as [r|] eqn:Hr; simpl in Heq.
      - specialize (Hreg r eq_refl). lia.
      - lia. }
    rewrite decide_False by set_solver.
    simpl. rewrite Hcat. simpl.
    eexists. split; [done|]. simpl. split; [|done].
    unfold warn_list_of. by rewrite lookup_total_insert_eq, insert_insert_eq. }
  rewrite Hb in Hafter, Hw1. simpl in Hafter, Hw1.
  destruct Hw1 as (_ & _ & _ & _ & _ & Hl1 & Hc1).
  assert (Hrun : __call__ function args kwargs (inside w) = (Ret v, w1)).
  { rewrite Hcall. unfold mbind, M_bind, bind. by rewrite Hbefore, Hb, Hafter. }
  assert (Hlist : lists w1 !!! warn_list_of w = [WarningMessage text cat file line]).
  { by rewrite Hl1, Hlists, lookup_total_insert_eq. }
  set (s := add_log (logged function (WarningMessage text cat file line)) (leave w w1)).
  assert (Heq : wrapper function args kwargs w =
                (warn msg cat util_file reraise_lineno util_module ≫= λ _, mret v) s).
  { rewrite (wrapper_returns _ _ _ _ _ _ Hrun), Hlist, report_cons.
    unfold mbind, M_bind, bind. fold s.
    change (compose_msg (WarningMessage text cat file line)) with msg.
    cbn [category].
    by destruct (warn msg cat util_file reraise_lineno util_module s) as [[[]|e] s']. }
  exists s. split_and!; try done.
  - simpl. by rewrite Hl1.
  - simpl. by rewrite Hc1.
  - rewrite Heq. unfold mbind, M_bind, bind.
    pose proof (warn_effect msg cat util_file reraise_lineno util_module s)
      as (_ & _ & Hl & _).
    by destruct (warn msg cat util_file reraise_lineno util_module s) as [[[]|e] s'].
  - rewrite Heq. unfold mbind, M_bind, bind.
    pose proof (warn_effect msg cat util_file reraise_lineno util_module s)
      as (_ & _ & _ & Hc).
    by destruct (warn msg cat util_file reraise_lineno util_module s) as [[[]|e] s'].
Qed.

Lemma one_warning_logged_and_reissued_witness :
  let w1 := (__call__ logs_and_warns [] ∅ (inside ignore_world)).2 in
  ∃ s,
    filters s = filters ignore_world ∧ showwarning s = showwarning ignore_world ∧
    stderr s = stderr w1 ∧
    lists s = <[warn_list_of ignore_world := [bad_value]]> (lists ignore_world) ∧
    log s = log w1 ++ [logged logs_and_warns bad_value] ∧
    warn_calls s = warn_calls ignore_world ++ [bad_value] ∧
    wrapper logs_and_warns [] ∅ ignore_world =
      (warn (compose_msg bad_value) ConfigWarning util_file reraise_lineno util_module
         ≫= λ _, mret (VInt 1)) s ∧
    log (wrapper logs_and_warns [] ∅ ignore_world).2 = log s ∧
    warn_calls (wrapper logs_and_warns [] ∅ ignore_world).2 =
      warn_calls s ++ [reissued bad_value].
Proof.
  apply (one_warning_logged_and_reissued logs_and_warns [] ∅ ignore_world "bad value"
           ConfigWarning "/home/user/settings.py" 12 "settings" (VInt 1)
           (logger_warning "settings" (VStr "loading"))
           (logger_warning "settings" (VStr "loaded");; mret (VInt 1))
           (add_log (LogRecord "settings" WARNING (VStr "loading")) (inside ignore_world))
           ((__call__ logs_and_warns [] ∅ (inside ignore_world)).2)).
  - reflexivity.
  - reflexivity.
  - repeat split.
  - reflexivity.
  - repeat split.
  - reflexivity.
  - intros r Hr. vm_compute in Hr. discriminate Hr.
Defined.

(** X16.  A function that calls [warnings.warn] once, with a category
    that is a [Warning], and returns: through the wrapper the logger of its
    module receives one record for that warning, and [warnings.warn] is
    called twice in all, by the function and then by the wrapper with the
    composed message. *)
Lemma one_issued_warning_reported text cat file line module v fmodule fname fdoc w :
  issubclass cat "Warning" = true →
  (∀ r, registries w !! module = Some r → (r.1 ≤ filters_version w)%nat) →
  let function := PyFunction fmodule fname fdoc
                    (λ _ _, warn text cat file line module;; mret v) in
  let w' := (wrapper function [] ∅ w).2 in
  log w' = log w ++ [logged function (WarningMessage text cat file line)] ∧
  warn_calls w' = warn_calls w ++ [WarningMessage text cat file line;
                                  reissued (WarningMessage text cat file line)].
Proof.
  intros Hcat Hreg function w'.
  destruct (issued_warning_is_captured text cat file line module w Hcat Hreg)
    as (w1 & Hw & Hlist & Hlog & Hcalls).
  assert (Hrun : __call__ function [] ∅ (inside w) = (Ret v, w1)).
  { simpl. unfold mbind, M_bind, bind. by rewrite Hw. }
  subst w'. rewrite (wrapper_returns _ _ _ _ _ _ Hrun), Hlist, report_cons.
  match goal with
  | |- context [warn ?t ?c ?f ?l ?md ?w0] =>
      pose proof (warn_effect t c f l md w0) as (_ & _ & Hl & Hc);
      destruct (warn t c f l md w0) as [[[]|e] w2]
  end; simpl in *; rewrite Hl, Hc, Hlog, Hcalls; by rewrite <- app_assoc.
Qed.

(** Under a filter that turns warnings into errors the warning issued
    again is raised: the wrapper then does not return the value. *)
Example reissued_warning_raised_under_error_filter :
  (wrapper warns_once [] ∅
     (World [Filter ActError "Warning" 0] 1 ∅ ∅ None ∅ [] [] [])).1 =
  Raise (Exn ConfigWarning [VStr (compose_msg bad_value)] None).
Proof. vm_compute. reflexivity. Qed.

(** C3.  A function that raises an [Exception] with a first argument: the
    logger of its module receives exactly one message, of severity ERROR,
    which is that argument, and the caller gets the very exception. *)
Theorem error_logged_and_reraised function args kwargs w exc w1 a rest :
  __call__ function args kwargs (inside w) = (Raise exc, w1) →
  isinstance exc "Exception" = true →
  exc_args exc = a :: rest →
  ∃ w', wrapper function args kwargs w = (Raise exc, w') ∧
        log w' = log w1 ++ [LogRecord (__module__ function) ERROR a] ∧
        warn_calls w' = warn_calls w1.
Proof.
  intros Hrun Hexc Hargs.
  rewrite (wrapper_raises _ _ _ _ _ _ Hrun), Hexc, Hargs.
  by eexists.
Qed.

Lemma error_logged_and_reraised_witness :
  ∃ w', wrapper fails [] ∅ world0 =
          (Raise (Exn ConfigError [VStr "wrong section"] None), w') ∧
        log w' = [] ++ [LogRecord "settings" ERROR (VStr "wrong section")] ∧
        warn_calls w' = [].
Proof.
  apply (error_logged_and_reraised fails [] ∅ world0
           (Exn ConfigError [VStr "wrong section"] None)
           ((__call__ fails [] ∅ (inside world0)).2)
           (VStr "wrong section") []); reflexivity.
Defined.

(** C4.  A function that raises an [Exception] with no argument: the
    caller gets another exception, the [IndexError] of [exc.args[0]], which
    has the original one as its context, and nothing is logged. *)
Theorem argless_error_masked function args kwargs w exc w1 :
  __call__ function args kwargs (inside w) = (Raise exc, w1) →
  isinstance exc "Exception" = true →
  exc_args exc = [] →
  ∃ exc' w', wrapper function args kwargs w = (Raise exc', w') ∧
             exc' ≠ exc ∧
             exc' = Exn IndexError_ [VStr "tuple index out of range"] (Some exc) ∧
             log w' = log w1.
Proof.
  intros Hrun Hexc Hargs.
  rewrite (wrapper_raises _ _ _ _ _ _ Hrun), Hexc, Hargs.
  eexists _, _. split_and!; try done.
  intros Heq. rewrite <- Heq in Hargs. discriminate Hargs.
Qed.

Lemma argless_error_masked_witness :
  ∃ exc' w', wrapper fails_bare [] ∅ world0 = (Raise exc', w') ∧
             exc' ≠ Exn ConfigError [] None ∧
             exc' = Exn IndexError_ [VStr "tuple index out of range"]
                        (Some (Exn ConfigError [] None)) ∧
             log w' = [].
Proof.
  apply (argless_error_masked fails_bare [] ∅ world0 (Exn ConfigError [] None)
           ((__call__ fails_bare [] ∅ (inside world0)).2)); reflexivity.
Defined.

(** What is not an [Exception] (a [KeyboardInterrupt], say) passes the
    wrapper without a word in the log. *)
Lemma base_exception_not_logged function args kwargs w exc w1 :
  __call__ function args kwargs (inside w) = (Raise exc, w1) →
  isinstance exc "Exception" = false →
  wrapper function args kwargs w = (Raise exc, leave w w1).
Proof. intros Hrun Hexc. by rewrite (wrapper_raises _ _ _ _ _ _ Hrun), Hexc. Qed.

(** C6 as stated fails for a function that looks at the state of
    [warnings]: [counts_filters] returns and issues no warning, yet the plain
    call from a state with no filter answers 0 and the wrapped call, which
    runs the function behind the [always] filter, answers 1. *)
Lemma counting_filters_differs :
  (__call__ counts_filters [] ∅ world0).1 = Ret (VInt 0) ∧
  warn_calls (__call__ counts_filters [] ∅ world0).2 = warn_calls world0 ∧
  (wrapper counts_filters [] ∅ world0).1 = Ret (VInt 1) ∧
  log (wrapper counts_filters [] ∅ world0).2 = [] ∧
  warn_calls (wrapper counts_filters [] ∅ world0).2 = [] ∧
  ¬ agrees_with_plain_call counts_filters [] ∅ world0.
Proof.
  split_and!; try (vm_compute; reflexivity).
  intros [H _]. vm_compute in H. discriminate H.
Qed.

(** C6 (amended).  A function that returns, issues no warning and neither
    reads nor changes the state of [warnings] (its value and what it logs
    depend on its arguments and on the log alone): the wrapped call returns
    the value of the plain call from the same state and leaves the same
    log, the wrapper adding no message; no warning is issued and, but for
    the new, empty list of the capture, the filters, the hook and what
    [stderr] shows are as before. *)
Theorem no_warning_same_result function args kwargs w v wd :
  uses_only_loggers function args kwargs →
  __call__ function args kwargs w = (Ret v, wd) →
  agrees_with_plain_call function args kwargs w ∧
  ∃ w', wrapper function args kwargs w = (Ret v, w') ∧
        log w' = log wd ∧ warn_calls w' = warn_calls w ∧ stderr w' = stderr w ∧
        filters w' = filters w ∧ showwarning w' = showwarning w ∧
        lists w' = <[warn_list_of w := []]> (lists w).
Proof.
  intros [f Hf] Hd. pose proof Hd as Hd'. rewrite Hf in Hd'. injection Hd' as Hv Hwd.
  assert (Hin : __call__ function args kwargs (inside w) =
                (Ret v, set_log (f (log w)).2 (inside w))).
  { rewrite Hf. change (log (inside w)) with (log w). by rewrite Hv. }
  assert (Hw : wrapper function args kwargs w =
               (Ret v, leave w (set_log (f (log w)).2 (inside w)))).
  { rewrite (wrapper_returns _ _ _ _ _ _ Hin).
    replace (lists _ !!! warn_list_of w) with (@nil warning_message); [done|].
    simpl. unfold warn_list_of. by rewrite lookup_total_insert_eq. }
  split.
  - unfold agrees_with_plain_call. rewrite Hw, Hd. simpl. by subst wd.
  - eexists. split; [exact Hw|]. simpl. split_and!; try done. by subst wd.
Qed.

Lemma no_warning_same_result_witness :
  agrees_with_plain_call logs_and_returns [] ∅ ignore_world ∧
  ∃ w', wrapper logs_and_returns [] ∅ ignore_world = (Ret (VInt 7), w') ∧
        log w' = log (__call__ logs_and_returns [] ∅ ignore_world).2 ∧
        warn_calls w' = warn_calls ignore_world ∧ stderr w' = stderr ignore_world ∧
        filters w' = filters ignore_world ∧ showwarning w' = showwarning ignore_world ∧
        lists w' = <[warn_list_of ignore_world := []]> (lists ignore_world).
Proof.
  apply (no_warning_same_result logs_and_returns [] ∅ ignore_world (VInt 7)
           ((__call__ logs_and_returns [] ∅ ignore_world).2)).
  - exists (λ l, (Ret (VInt 7), l ++ [LogRecord "settings" WARNING (VStr "seven")])).
    intros w. reflexivity.
  - reflexivity.
Defined.

(** X17.  For a function that only uses the loggers and returns, the
    wrapped call and the plain call from the same state agree on the value
    and on the log, and no warning is issued. *)
Lemma wrapper_refines_call function args kwargs w v wd :
  uses_only_loggers function args kwargs →
  __call__ function args kwargs w = (Ret v, wd) →
  ∃ w', wrapper function args kwargs w = (Ret v, w') ∧
        log w' = log wd ∧ warn_calls w' = warn_calls w.
Proof.
  intros [f Hf] Hd. rewrite Hf in Hd. injection Hd as Hv Hwd.
  assert (Hin : __call__ function args kwargs (inside w) =
                (Ret v, set_log (f (log w)).2 (inside w))).
  { rewrite Hf. change (log (inside w)) with (log w). by rewrite Hv. }
  rewrite (wrapper_returns _ _ _ _ _ _ Hin).
  replace (lists _ !!! warn_list_of w) with (@nil warning_message).
  - eexists. split; [done|]. by subst wd.
  - simpl. unfold warn_list_of. by rewrite lookup_total_insert_eq.
Qed.

(** C5 as stated fails: the warning captured before the function raises is
    neither logged nor issued again. *)
Lemma captured_warning_dropped_on_error :
  ¬ never_dropped warns_then_fails [] ∅ world0.
Proof.
  intros H. destruct (H bad_value) as [Hlog _].
  - vm_compute. left.
  - vm_compute in Hlog. apply list_elem_of_singleton in Hlog. discriminate Hlog.
Qed.

(** The loop over two lists in a row. *)
Lemma report_app function l1 l2 s :
  report function (l1 ++ l2) s =
    match report function l1 s with
    | (Ret _, s1) => report function l2 s1
    | (Raise e, s1) => (Raise e, s1)
    end.
Proof.
  revert s. induction l1 as [|a l1 IH]; intros s; [done|].
  rewrite <- app_comm_cons, !report_cons.
  by destruct (warn _ _ _ _ _ _) as [[[]|e] s1].
Qed.

(** C5 (amended).  When the wrapped call returns, every warning captured
    while the function ran has been logged and issued again to the caller,
    in the order of the capture: the loop has run to its end from a state
    whose filters and hook are those of the caller, and for each captured
    warning, after the ones before it, the wrapper has logged it and has
    called [warnings.warn] for it under those filters and that hook. *)
Theorem captured_warnings_reported_on_return function args kwargs w v w' :
  wrapper function args kwargs w = (Ret v, w') →
  let w1 := (__call__ function args kwargs (inside w)).2 in
  let ws := lists w1 !!! warn_list_of w in
  ∃ s,
    filters s = filters w ∧ showwarning s = showwarning w ∧
    lists s = lists w1 ∧ stderr s = stderr w1 ∧ log s = log w1 ∧
    warn_calls s = warn_calls w1 ∧
    report function ws s = (Ret tt, w') ∧
    (∀ l1 x l2, ws = l1 ++ x :: l2 →
       ∃ s1 s2, report function l1 s = (Ret tt, s1) ∧
                filters s1 = filters w ∧ showwarning s1 = showwarning w ∧
                warn (compose_msg x) (category x) util_file reraise_lineno util_module
                     (add_log (logged function x) s1) = (Ret tt, s2)) ∧
    log w' = log w1 ++ (logged function <$> ws) ∧
    warn_calls w' = warn_calls w1 ++ (reissued <$> ws) ∧
    never_dropped function args kwargs w.
Proof.
  intros Hw w1 ws.
  destruct (__call__ function args kwargs (inside w)) as [[v0|exc] w1'] eqn:Hrun.
  2:{ rewrite (wrapper_raises _ _ _ _ _ _ Hrun) in Hw.
      by repeat case_match. }
  simpl in w1. subst w1.
  pose proof (wrapper_returns _ _ _ _ _ _ Hrun) as Heq.
  rewrite Hw in Heq. fold ws in Heq.
  set (s := leave w w1') in *.
  destruct (report_effect function ws s) as (n & _ & _ & _ & Hl & Hc & Hn).
  destruct (report function ws s) as [[[]|e] w2] eqn:Hreport; [|done].
  injection Heq as _ ->. simpl in Hl, Hc, Hn.
  rewrite (Hn eq_refl), firstn_all in Hl, Hc.
  assert (Hlog : log w2 = log w1' ++ (logged function <$> ws)) by done.
  assert (Hcalls : warn_calls w2 = warn_calls w1' ++ (reissued <$> ws)) by done.
  exists s. split_and!; [done..| | | |].
  - intros l1 x l2 Hsplit. rewrite Hsplit, report_app in Hreport.
    destruct (report_effect function l1 s) as (_ & _ & Hf1 & Hs1 & _).
    destruct (report function l1 s) as [[[]|e1] s1]; [|done].
    rewrite report_cons in Hreport.
    destruct (warn _ _ _ _ _ (add_log (logged function x) s1)) as [[[]|e2] s2] eqn:Hwarn;
      [|done].
    by exists s1, s2.
  - done.
  - done.
  - unfold never_dropped. rewrite Hrun, Hw. simpl. fold ws.
    intros warn_ Hin. rewrite Hlog, Hcalls. split.
    + apply elem_of_app. right. by apply list_elem_of_fmap_2.
    + apply elem_of_app. right. by apply list_elem_of_fmap_2.
Qed.

Lemma captured_warnings_reported_on_return_witness :
  let w1 := (__call__ warns_twice [] ∅ (inside ignore_world)).2 in
  let ws := lists w1 !!! warn_list_of ignore_world in
  ∃ s,
    filters s = filters ignore_world ∧ showwarning s = showwarning ignore_world ∧
    lists s = lists w1 ∧ stderr s = stderr w1 ∧ log s = log w1 ∧
    warn_calls s = warn_calls w1 ∧
    report warns_twice ws s = (Ret tt, (wrapper warns_twice [] ∅ ignore_world).2) ∧
    (∀ l1 x l2, ws = l1 ++ x :: l2 →
       ∃ s1 s2, report warns_twice l1 s = (Ret tt, s1) ∧
                filters s1 = filters ignore_world ∧
                showwarning s1 = showwarning ignore_world ∧
                warn (compose_msg x) (category x) util_file reraise_lineno util_module
                     (add_log (logged warns_twice x) s1) = (Ret tt, s2)) ∧
    log (wrapper warns_twice [] ∅ ignore_world).2 = log w1 ++ (logged warns_twice <$> ws) ∧
    warn_calls (wrapper warns_twice [] ∅ ignore_world).2 =
      warn_calls w1 ++ (reissued <$> ws) ∧
    never_dropped warns_twice [] ∅ ignore_world.
Proof.
  apply (captured_warnings_reported_on_return warns_twice [] ∅ ignore_world (VInt 1)
           ((wrapper warns_twice [] ∅ ignore_world).2)).
  vm_compute. reflexivity.
Defined.

(** X15.  When the function raises, the wrapper calls [warnings.warn] for
    none of the captured warnings and logs at most the error: what was
    captured before the exception is lost. *)
Lemma captured_warnings_dropped function args kwargs w exc w1 :
  __call__ function args kwargs (inside w) = (Raise exc, w1) →
  let w' := (wrapper function args kwargs w).2 in
  warn_calls w' = warn_calls w1 ∧
  (log w' = log w1 ∨
   ∃ a, log w' = log w1 ++ [LogRecord (__module__ function) ERROR a]).
Proof.
  intros Hrun. cbn zeta. rewrite (wrapper_raises _ _ _ _ _ _ Hrun).
  repeat case_match; simpl; eauto.
Qed.

(** C10.  Whatever the wrapped function does, the filters and the hook of
    [warnings] after the call are those before the call; the function runs
    with the [always] filter in front. *)
Theorem warning_filters_restored function args kwargs w :
  filters (wrapper function args kwargs w).2 = filters w ∧
  showwarning (wrapper function args kwargs w).2 = showwarning w ∧
  filters (inside w) =
    Filter ActAlways "Warning" 0 ::
      remove_first (Filter ActAlways "Warning" 0) (filters w).
Proof.
  split_and!; [| |done];
    destruct (__call__ function args kwargs (inside w)) as [[v|exc] w1] eqn:Hrun.
  - rewrite (wrapper_returns _ _ _ _ _ _ Hrun).
    destruct (report_effect function (lists w1 !!! warn_list_of w) (leave w w1))
      as (n & _ & Hf & _).
    by destruct (report _ _ _) as [[] ?].
  - rewrite (wrapper_raises _ _ _ _ _ _ Hrun). by repeat case_match.
  - rewrite (wrapper_returns _ _ _ _ _ _ Hrun).
    destruct (report_effect function (lists w1 !!! warn_list_of w) (leave w w1))
      as (n & _ & _ & Hs & _).
    by destruct (report _ _ _) as [[] ?].
  - rewrite (wrapper_raises _ _ _ _ _ _ Hrun). by repeat case_match.
Qed.

End LogExceptionsWarningsFacts.

(** ** Facts about [temp_filename] *)

Section TempFilenameFacts.
Import TempFilename.

(** After [unlink], whatever its outcome, the path names no file. *)
Lemma unlink_gone path (fs : gmap string string) : (unlink path fs).2 !! path = None.
Proof.
  unfold unlink. destruct (fs !! path) eqn:H; simpl; [|done].
  apply lookup_delete_eq.
Qed.

(** The generator up to its [yield], for a mode that takes text and a text
    that the encoding takes. *)
Lemma temp_filename_enter codec data mode (fs : gmap string string) :
  valid_mode mode = true → writable mode = true → binary mode = false →
  (∀ d, data = Some d → codec d = None) →
  before_yield (temp_filename codec data mode) fs =
    (Ret (fresh (dom fs), fresh (dom fs)),
     <[fresh (dom fs) := default "" data]> fs).
Proof.
  intros Hv Hw Hb Henc. simpl.
  unfold NamedTemporaryFile, write, write_refusal, mbind, M_bind, bind,
    mret, M_ret, ret, modify.
  rewrite Hv, Hb, Hw.
  destruct data as [d|]; simpl; [|done].
  case_bool_decide as Hd; simpl.
  - by subst d.
  - rewrite (Henc d eq_refl). by rewrite lookup_insert_eq, insert_insert_eq.
Qed.

(** However the block ends, the path names no file after the scope. *)
Lemma temp_filename_exit codec data mode A (block : string → M (gmap string string) A)
    (fs : gmap string string) :
  valid_mode mode = true → writable mode = true → binary mode = false →
  (∀ d, data = Some d → codec d = None) →
  (with_ (temp_filename codec data mode) block fs).2 !! fresh (dom fs) = None.
Proof.
  intros Hv Hw Hb Henc. unfold with_. rewrite temp_filename_enter by done.
  set (path := fresh (dom fs)).
  destruct (block path _) as [[a|e] fs2]; simpl.
  - pose proof (unlink_gone path fs2) as Hu.
    by destruct (unlink path fs2) as [[] ?].
  - unfold try_finally, raise.
    pose proof (unlink_gone path fs2) as Hu.
    by destruct (unlink path fs2) as [[|[]] ?].
Qed.

(** C8 (amended).  With the default mode [wt], for no text or a text that
    the encoding of the locale can encode, the block receives a path that
    named no file before and that names a file holding the text when the
    block starts (the empty text for [None]); however the block ends,
    returning or raising, the path names no file afterwards. *)
Theorem temp_file_scoped codec data A (block : string → M (gmap string string) A)
    (fs : gmap string string) :
  (∀ d, data = Some d → codec d = None) →
  scoped codec data block fs.
Proof.
  intros Henc. unfold scoped. split_and!.
  - apply not_elem_of_dom, is_fresh.
  - by apply temp_filename_enter.
  - by apply temp_filename_exit.
Qed.

Lemma temp_file_scoped_witness :
  scoped ascii_codec (Some "[section]") raising_block {[ "a.cfg" := "x" ]}.
Proof.
  apply (temp_file_scoped ascii_codec (Some "[section]") unit raising_block
           {[ "a.cfg" := "x" ]}).
  intros d Hd. injection Hd as <-. reflexivity.
Defined.

(** C8 as stated fails for a text that the encoding refuses: the write,
    which comes before the [try], raises [UnicodeEncodeError]; no path is
    given to the block and the empty file stays. *)
Lemma temp_file_not_scoped_for_refused_text :
  ¬ scoped ascii_codec (Some cafe) read_block ∅ ∧
  with_ (temp_filename ascii_codec (Some cafe) default_mode) read_block ∅ =
    (Raise (Exn UnicodeEncodeError_
              [VStr "ascii"; VStr cafe; VInt 3; VInt 4;
               VStr "ordinal not in range(128)"] None),
     {[ fresh (dom (∅ : gmap string string)) := "" ]}).
Proof.
  split.
  - intros (_ & H & _). vm_compute in H. discriminate H.
  - vm_compute. reflexivity.
Qed.

(** The scenario of a block that raises. *)
Example temp_file_removed_after_error :
  with_ (temp_filename utf8_codec (Some "[section]") default_mode)
        (λ _, raise (Exn ValueError_ [] None) : M (gmap string string) unit) ∅ =
    (Raise (Exn ValueError_ [] None), ∅).
Proof. vm_compute. reflexivity. Qed.

(** A block that leaves the files alone: the scope leaves them as they
    were, and the value of the block is the value of the statement. *)
Lemma temp_file_frame codec data mode A (block : string → M (gmap string string) A)
    (fs : gmap string string) a :
  valid_mode mode = true → writable mode = true → binary mode = false →
  (∀ d, data = Some d → codec d = None) →
  (∀ p s, block p s = (Ret a, s)) →
  with_ (temp_filename codec data mode) block fs = (Ret (Some a), fs).
Proof.
  intros Hv Hw Hb Henc Hblock. unfold with_.
  rewrite temp_filename_enter, Hblock by done. simpl.
  unfold unlink. rewrite lookup_insert_eq, delete_insert_eq.
  rewrite delete_id; [done|]. apply not_elem_of_dom, is_fresh.
Qed.

(** A binary mode refuses the text before the [yield]: the block does not
    run and the file stays. *)
Lemma temp_file_binary_mode_leaks :
  ∃ e fs', with_ (temp_filename utf8_codec (Some "[section]") "wb")
                 (λ _, mret tt : M (gmap string string) unit) ∅ = (Raise e, fs') ∧
           exc_class e = TypeError_ ∧ size fs' = 1%nat.
Proof. eexists _, _. split_and!; vm_compute; reflexivity. Qed.

End TempFilenameFacts.

(** ** Facts about [console_logger_level] and [no_logging] *)

Section LoggingControlFacts.
Import LoggingControl.

(** The loop stops at a handler that exists. *)
Lemma console_handler_exists w h :
  console_handler w = Some h → is_Some (objects w !! h).
Proof.
  intros H. apply head_Some_elem_of, list_elem_of_filter in H as [H _].
  unfold is_console in H. by destruct (objects w !! h).
Qed.

(** Setting a level and then the level found before changes nothing. *)
Lemma setLevel_back w h lvl :
  (setLevel h (default NOTSET (level <$> objects w !! h)) (setLevel h lvl w).2).2 = w.
Proof.
  unfold setLevel, modify. simpl. destruct w as [o hs d so]. simpl. f_equal.
  apply map_eq. intros i.
  destruct (decide (h = i)) as [->|Hne].
  - rewrite !lookup_alter_eq. by destruct (o !! i) as [[]|].
  - by rewrite !lookup_alter_ne.
Qed.

(** Inside the scope the console handler has the level asked for. *)
Lemma console_level_inside lvl w h :
  console_handler w = Some h →
  ∃ l, before_yield (console_logger_level lvl) w =
         (Ret (VNone, Some (h, default NOTSET (level <$> objects w !! h))), l) ∧
       level <$> objects l !! h = Some lvl.
Proof.
  intros Hc. simpl. rewrite Hc. eexists. split; [done|]. simpl.
  rewrite lookup_alter_eq.
  by destruct (console_handler_exists w h Hc) as [hd ->].
Qed.

(** X23.  When the block returns, whatever it did to the logging state
    (a level it set on the console handler itself included), the console
    handler found on entry is back at the level it had on entry. *)
Lemma console_level_restored A (block : value → M logging A) lvl w h a w2 :
  console_handler w = Some h →
  block VNone (setLevel h lvl w).2 = (Ret a, w2) →
  is_Some (objects w2 !! h) →
  level <$> objects (with_ (console_logger_level lvl) block w).2 !! h =
  level <$> objects w !! h.
Proof.
  intros Hc Hb [hd2 H2]. unfold with_. simpl. rewrite Hc.
  unfold mbind, M_bind, bind, mret, M_ret, ret.
  change (setLevel h lvl w) with (Ret tt, (setLevel h lvl w).2).
  cbn iota. rewrite Hb. cbn iota. unfold setLevel at 1, modify. simpl.
  rewrite lookup_alter_eq, H2.
  by destruct (console_handler_exists w h Hc) as [hd ->].
Qed.

(** When the block raises, neither generator runs any further: the state
    is the one in which the block ended. *)
Lemma logging_scopes_exception A (block : value → M logging A) lvl w :
  (∀ l e w2, block VNone l = (Raise e, w2) →
     (before_yield (console_logger_level lvl) w).2 = l →
     with_ (console_logger_level lvl) block w = (Raise e, w2)) ∧
  (∀ l e w2, block VNone l = (Raise e, w2) →
     (before_yield no_logging w).2 = l →
     with_ no_logging block w = (Raise e, w2)).
Proof.
  split; intros l e w2 Hb <-; unfold with_.
  - destruct (before_yield (console_logger_level lvl) w) as [[[y st]|e0] l] eqn:He.
    + assert (y = VNone) as ->.
      { simpl in He. destruct (console_handler w); by inversion He. }
      simpl in Hb. by rewrite Hb.
    + simpl in He. destruct (console_handler w); by inversion He.
  - simpl in *. unfold mbind, M_bind, bind, mret, M_ret, ret in *. simpl in *.
    by rewrite Hb.
Qed.

(** C9 as stated fails: an exception in the block leaves the console
    handler at the level of the scope, and [no_logging] enables a logging
    that was disabled before. *)
Lemma logging_scopes_not_always_restored :
  ¬ restores (console_logger_level 40) failing_block console_state ∧
  ¬ restores no_logging pass_block quiet_state.
Proof.
  split; intros H.
  - apply (f_equal (λ w, level <$> objects w !! 1%nat)) in H.
    vm_compute in H. discriminate H.
  - apply (f_equal disable) in H. vm_compute in H. discriminate H.
Qed.

(** C9 (amended).  For a block that returns and leaves the logging state
    alone: [console_logger_level] leaves the state as it found it, the
    level of the console handler included; [no_logging] leaves the
    threshold of [logging.disable] at NOTSET, which is the state it found
    when logging was not disabled before. *)
Theorem logging_scopes_restore_on_return A (block : value → M logging A) lvl w :
  (∀ y s, ∃ a, block y s = (Ret a, s)) →
  restores (console_logger_level lvl) block w ∧
  disable (with_ no_logging block w).2 = NOTSET ∧
  (disable w = NOTSET → restores no_logging block w).
Proof.
  intros Hblock. unfold restores, with_. split_and!.
  - simpl. destruct (console_handler w) as [h|] eqn:Hc.
    + unfold mbind, M_bind, bind, mret, M_ret, ret.
      destruct (Hblock VNone (setLevel h lvl w).2) as [a Ha].
      change (setLevel h lvl w) with (Ret tt, (setLevel h lvl w).2).
      cbn iota. rewrite Ha. cbn iota.
      pose proof (setLevel_back w h lvl) as Hb.
      by destruct (setLevel h _ _) as [[] ?].
    + destruct (Hblock VNone w) as [a Ha]. by rewrite Ha.
  - simpl. unfold mbind, M_bind, bind, mret, M_ret, ret, logging_disable, modify.
    match goal with |- context [block ?y ?s] => destruct (Hblock y s) as [a Ha]; rewrite Ha end.
    done.
  - intros Hd. simpl.
    unfold mbind, M_bind, bind, mret, M_ret, ret, logging_disable, modify.
    match goal with |- context [block ?y ?s] => destruct (Hblock y s) as [a Ha]; rewrite Ha end.
    simpl. destruct w. simpl in *. by subst.
Qed.

Lemma logging_scopes_restore_on_return_witness :
  restores (console_logger_level 40) pass_block console_state ∧
  disable (with_ no_logging pass_block console_state).2 = NOTSET ∧
  (disable console_state = NOTSET → restores no_logging pass_block console_state).
Proof.
  apply (logging_scopes_restore_on_return value pass_block 40 console_state).
  intros y s. exists VNone. reflexivity.
Defined.

End LoggingControlFacts.

(** ** More about [cached_property] *)

Section CachedPropertyMore.
Import CachedProperty.

(** X1.  The descriptor as [__init__] builds it memoizes the attribute it
    is bound to when that attribute is the name it settles on: the name of
    the method when no name or the empty name is given (the decorator
    form), the given name otherwise; this for a plain instance, one whose
    attributes are assigned in its dictionary.  The descriptor takes the
    documentation of the method. *)
Theorem constructed_descriptor_memoizes cls f nm attr i w v h :
  (nm = None ∧ attr = __name__ f) ∨ (nm = Some "" ∧ attr = __name__ f) ∨
  (nm = Some attr ∧ attr ≠ "") →
  cls !! attr = Some (ClsDescr (__init__ f nm)) →
  setattr_of w !! i = None →
  (heap w !!! i) !! attr = None →
  __code__ f i (heap w) = (Ret v, h) →
  memoized cls (__init__ f nm) i attr w ∧ doc (__init__ f nm) = __doc__ f.
Proof.
  intros Hnm Hcls Hplain Hfresh Hc. split; [|done].
  assert (Hname : name (__init__ f nm) = attr).
  { destruct Hnm as [[-> ->]|[[-> ->]|[-> Hne]]]; simpl; [done..|].
    by rewrite bool_decide_eq_false_2. }
  set (d := __init__ f nm) in *.
  assert (Hget : getattr cls i attr w =
                 (Ret (inr v), World (<[i := <[attr := v]> (h !!! i)]> h)
                                     (calls w ++ [(__name__ f, i)]) (setattr_of w))).
  { unfold getattr. rewrite Hfresh, Hcls, <- Hname.
    by apply get_instance_returns. }
  eexists v, _, _. split_and!.
  - change (method d) with f. by rewrite Hc.
  - exact Hget.
  - done.
  - rewrite Hname. simpl. rewrite lookup_total_insert_eq. apply lookup_insert_eq.
  - apply getattr_instance_dict. simpl.
    rewrite lookup_total_insert_eq. apply lookup_insert_eq.
  - done.
Qed.

Lemma constructed_descriptor_memoizes_witness :
  memoized total_class (__init__ total_method None) 1%nat "total" two_instances ∧
  doc (__init__ total_method None) = Some "base plus one".
Proof.
  apply (constructed_descriptor_memoizes total_class total_method None "total"
           1%nat two_instances (VInt 11) (heap two_instances)).
  - left. split; reflexivity.
  - reflexivity.
  - reflexivity.
  - reflexivity.
  - reflexivity.
Defined.

(** X2.  On a plain instance, one whose attributes are assigned in its
    dictionary, when the method returns, [__get__] writes one slot: the
    attribute of its name on that instance, which then holds the result
    whatever the method itself had put there; every other attribute of
    every object is as the method left it. *)
Theorem get_writes_one_slot self i cls w v h :
  setattr_of w !! i = None →
  __code__ (method self) i (heap w) = (Ret v, h) →
  let w' := (__get__ self (Some i) cls w).2 in
  (heap w' !!! i) !! name self = Some v ∧
  (∀ n, n ≠ name self → (heap w' !!! i) !! n = (h !!! i) !! n) ∧
  (∀ j, j ≠ i → heap w' !!! j = h !!! j).
Proof.
  intros Hplain Hc. cbn zeta.
  rewrite (get_instance_returns self i cls w v h Hplain Hc). simpl.
  split_and!.
  - rewrite lookup_total_insert_eq. apply lookup_insert_eq.
  - intros n Hn. rewrite lookup_total_insert_eq. by apply lookup_insert_ne.
  - intros j Hj. by apply lookup_total_insert_ne.
Qed.

Lemma get_writes_one_slot_witness :
  let w' := (__get__ (__init__ total_method None) (Some 0%nat) total_class
               two_instances).2 in
  (heap w' !!! 0%nat) !! "total" = Some (VInt 2) ∧
  (∀ n, n ≠ "total" → (heap w' !!! 0%nat) !! n = (heap two_instances !!! 0%nat) !! n) ∧
  (∀ j, j ≠ 0%nat → heap w' !!! j = heap two_instances !!! j).
Proof.
  apply (get_writes_one_slot (__init__ total_method None) 0%nat total_class
           two_instances (VInt 2) (heap two_instances)); reflexivity.
Defined.

(** An attribute set by hand, and a method that raises. *)
Lemma cached_property_shadowed_witness :
  ∃ w', (getattr answer_class 0%nat "answer" ≫= λ _, getattr answer_class 0%nat "answer")
          preset_world = (Ret (inr (VInt 7)), w') ∧
        calls w' = calls preset_world.
Proof.
  apply (cached_property_shadowed answer_class 0%nat "answer" preset_world (VInt 7)).
  reflexivity.
Defined.

Lemma cached_property_raising_recomputes_witness :
  ∃ w1, getattr total_class 0%nat "total" no_base_world =
          (Raise (Exn ValueError_ [VStr "no base"] None), w1) ∧
        heap w1 = heap no_base_world ∧
        calls w1 = calls no_base_world ++ [("total", 0%nat)] ∧
        ((heap no_base_world !!! 0%nat) !! "total" = None →
         calls (getattr total_class 0%nat "total" w1).2 =
           calls no_base_world ++ [("total", 0%nat); ("total", 0%nat)]) ∧
        (∀ v, (heap no_base_world !!! 0%nat) !! "total" = Some v →
              getattr total_class 0%nat "total" w1 = (Ret (inr v), w1)).
Proof.
  apply (cached_property_raising_recomputes total_class
           (__init__ total_method None) 0%nat "total" no_base_world
           (Exn ValueError_ [VStr "no base"] None) (heap no_base_world));
    reflexivity.
Defined.

(** X5.  The value is cached in the instance, not in the descriptor: after
    the first access on one plain instance, the first access on another
    instance calls the method again, on that instance. *)
Theorem cache_is_per_instance cls d i j attr w v h :
  cls !! attr = Some (ClsDescr d) →
  i ≠ j →
  setattr_of w !! i = None →
  (heap w !!! i) !! attr = None →
  __code__ (method d) i (heap w) = (Ret v, h) →
  (h !!! j) !! attr = None →
  ∃ w1, getattr cls i attr w = (Ret (inr v), w1) ∧
        calls (getattr cls j attr w1).2 =
          calls w ++ [(__name__ (method d), i); (__name__ (method d), j)].
Proof.
  intros Hcls Hij Hplain Hi Hc Hj.
  eexists. split.
  - unfold getattr. rewrite Hi, Hcls. by apply get_instance_returns.
  - unfold getattr. simpl.
    rewrite lookup_total_insert_ne by done. rewrite Hj, Hcls.
    unfold __get__, call, setattr, mbind, M_bind, bind. simpl.
    destruct (__code__ (method d) j _) as [[v'|e] h'] eqn:Hcj; simpl.
    + destruct (setattr_of w !! j) as [f|]; simpl.
      * destruct (f (name d) v' h') as [[] ?]; simpl; by rewrite <- app_assoc.
      * by rewrite <- app_assoc.
    + by rewrite <- app_assoc.
Qed.

Lemma cache_is_per_instance_witness :
  ∃ w1, getattr total_class 0%nat "total" two_instances = (Ret (inr (VInt 2)), w1) ∧
        calls (getattr total_class 1%nat "total" w1).2 =
          [] ++ [("total", 0%nat); ("total", 1%nat)].
Proof.
  apply (cache_is_per_instance total_class (__init__ total_method None)
           0%nat 1%nat "total" two_instances (VInt 2) (heap two_instances));
    try reflexivity.
  discriminate.
Defined.

End CachedPropertyMore.

(** ** More about [temp_filename] *)

Section TempFilenameMore.
Import TempFilename.

(** The generator up to its [yield] when there is nothing to write. *)
Lemma temp_filename_enter_empty codec data mode (fs : gmap string string) :
  valid_mode mode = true → truthy data = false →
  before_yield (temp_filename codec data mode) fs =
    (Ret (fresh (dom fs), fresh (dom fs)), <[fresh (dom fs) := ""]> fs).
Proof.
  intros Hv Ht. simpl.
  unfold NamedTemporaryFile, mbind, M_bind, bind, mret, M_ret, ret.
  by rewrite Hv, Ht.
Qed.

(** What the two ways out of the [yield] leave: the files of the block
    without the temporary one. *)
Lemma unlink_deletes path (fs : gmap string string) :
  (unlink path fs).2 = delete path fs.
Proof.
  unfold unlink. destruct (fs !! path) eqn:H; simpl; [done|].
  symmetry. by apply delete_id.
Qed.

(** X6.  In a mode that takes text and for a text that the encoding takes,
    the only lasting effect of the scope on the files is that of the block:
    afterwards the files are those the block left, without the temporary
    one.  When the block left the temporary file in place, the statement
    ends as the block did, with its value or with its exception. *)
Theorem temp_file_scope_effect codec data mode A
    (block : string → M (gmap string string) A) (fs fs2 : gmap string string) r :
  valid_mode mode = true → writable mode = true → binary mode = false →
  (∀ d, data = Some d → codec d = None) →
  block (fresh (dom fs)) (<[fresh (dom fs) := default "" data]> fs) = (r, fs2) →
  (with_ (temp_filename codec data mode) block fs).2 = delete (fresh (dom fs)) fs2 ∧
  (is_Some (fs2 !! fresh (dom fs)) →
   (with_ (temp_filename codec data mode) block fs).1 =
     match r with Ret a => Ret (Some a) | Raise e => Raise e end).
Proof.
  intros Hv Hw Hb Henc Hblock. unfold with_.
  rewrite temp_filename_enter, Hblock by done.
  set (path := fresh (dom fs)). simpl.
  pose proof (unlink_deletes path fs2) as Hd.
  destruct r as [a|e]; simpl.
  - split.
    + by destruct (unlink path fs2) as [[] ?].
    + intros [c Hc]. unfold unlink in *. by rewrite Hc.
  - unfold try_finally, raise. split.
    + by destruct (unlink path fs2) as [[|[]] ?].
    + intros [c Hc]. unfold unlink in *. by rewrite Hc.
Qed.

Lemma temp_file_scope_effect_witness :
  (with_ (temp_filename ascii_codec (Some "[section]") "wt") read_block
         {[ "a.cfg" := "x" ]}).2 =
    delete (fresh (dom ({[ "a.cfg" := "x" ]} : gmap string string)))
      (<[fresh (dom ({[ "a.cfg" := "x" ]} : gmap string string)) := "[section]"]>
         {[ "a.cfg" := "x" ]}) ∧
  (is_Some ((<[fresh (dom ({[ "a.cfg" := "x" ]} : gmap string string)) := "[section]"]>
               ({[ "a.cfg" := "x" ]} : gmap string string))
            !! fresh (dom ({[ "a.cfg" := "x" ]} : gmap string string))) →
   (with_ (temp_filename ascii_codec (Some "[section]") "wt") read_block
          {[ "a.cfg" := "x" ]}).1 =
     Ret (Some "[section]")).
Proof.
  apply (temp_file_scope_effect ascii_codec (Some "[section]") "wt" string read_block
           {[ "a.cfg" := "x" ]} _ (Ret "[section]")); try reflexivity.
  intros d Hd. injection Hd as <-. reflexivity.
Defined.

(** X27.  In a mode that takes text and for a text that the encoding
    takes, a block that returns and leaves the files as it found them (the
    temporary one included): after the scope the files are those from
    before the scope, no file more and no file less, and the value of the
    block is the value of the statement. *)
Theorem temp_file_scope_frame codec data mode A
    (block : string → M (gmap string string) A) (fs : gmap string string) a :
  valid_mode mode = true → writable mode = true → binary mode = false →
  (∀ d, data = Some d → codec d = None) →
  block (fresh (dom fs)) (<[fresh (dom fs) := default "" data]> fs) =
    (Ret a, <[fresh (dom fs) := default "" data]> fs) →
  with_ (temp_filename codec data mode) block fs = (Ret (Some a), fs).
Proof.
  intros Hv Hw Hb Henc Hblock. unfold with_.
  rewrite temp_filename_enter, Hblock by done. simpl.
  unfold unlink. rewrite lookup_insert_eq, delete_insert_eq.
  rewrite delete_id; [done|]. apply not_elem_of_dom, is_fresh.
Qed.

Lemma temp_file_scope_frame_witness :
  with_ (temp_filename ascii_codec (Some "[section]") "wt") read_block
        {[ "a.cfg" := "x" ]} =
    (Ret (Some "[section]"), {[ "a.cfg" := "x" ]}).
Proof.
  apply (temp_file_scope_frame ascii_codec (Some "[section]") "wt" string read_block
           {[ "a.cfg" := "x" ]} "[section]"); try reflexivity.
  intros d Hd. injection Hd as <-. reflexivity.
Defined.

(** X7.  In a mode that takes text and for a text that the encoding takes,
    a block that removes the temporary file itself makes the scope fail:
    [os.unlink] raises [FileNotFoundError], which replaces the value of the
    block, or its exception, kept as the context. *)
Theorem temp_file_removed_by_block codec data mode A
    (block : string → M (gmap string string) A) (fs fs2 : gmap string string) r :
  valid_mode mode = true → writable mode = true → binary mode = false →
  (∀ d, data = Some d → codec d = None) →
  block (fresh (dom fs)) (<[fresh (dom fs) := default "" data]> fs) = (r, fs2) →
  fs2 !! fresh (dom fs) = None →
  with_ (temp_filename codec data mode) block fs =
    (Raise (no_such_file (match r with Ret _ => None | Raise e => Some e end)), fs2).
Proof.
  intros Hv Hw Hb Henc Hblock Hgone. unfold with_.
  rewrite temp_filename_enter, Hblock by done. simpl.
  destruct r as [a|e]; simpl.
  - unfold unlink. by rewrite Hgone.
  - unfold try_finally, raise, unlink. by rewrite Hgone.
Qed.

Lemma temp_file_removed_by_block_witness :
  with_ (temp_filename ascii_codec (Some "[section]") "wt") removing_block ∅ =
    (Raise (no_such_file None), ∅).
Proof.
  apply (temp_file_removed_by_block ascii_codec (Some "[section]") "wt" unit
           removing_block ∅ ∅ (Ret tt)); try reflexivity.
  intros d Hd. injection Hd as <-. reflexivity.
Defined.

(** X8.  With no text, [None] or the empty one, nothing is written: every
    mode that [open] accepts, binary and read-only ones included, gives the
    block an empty file, which is gone after the scope. *)
Theorem temp_file_without_text codec data mode A
    (block : string → M (gmap string string) A) (fs : gmap string string) :
  valid_mode mode = true →
  data = None ∨ data = Some "" →
  before_yield (temp_filename codec data mode) fs =
    (Ret (fresh (dom fs), fresh (dom fs)), <[fresh (dom fs) := ""]> fs) ∧
  (with_ (temp_filename codec data mode) block fs).2 !! fresh (dom fs) = None.
Proof.
  intros Hv Hdata.
  assert (Ht : truthy data = false) by by destruct Hdata as [->| ->].
  split; [by apply temp_filename_enter_empty|].
  unfold with_. rewrite temp_filename_enter_empty by done.
  set (path := fresh (dom fs)).
  destruct (block path _) as [[a|e] fs2]; simpl.
  - pose proof (unlink_gone path fs2) as Hu.
    by destruct (unlink path fs2) as [[] ?].
  - unfold try_finally, raise.
    pose proof (unlink_gone path fs2) as Hu.
    by destruct (unlink path fs2) as [[|[]] ?].
Qed.

Lemma temp_file_without_text_witness :
  before_yield (temp_filename ascii_codec None "rb") (∅ : gmap string string) =
    (Ret (fresh (dom (∅ : gmap string string)), fresh (dom (∅ : gmap string string))),
     <[fresh (dom (∅ : gmap string string)) := ""]> ∅) ∧
  (with_ (temp_filename ascii_codec None "rb") read_block ∅).2
    !! fresh (dom (∅ : gmap string string)) = None.
Proof.
  apply (temp_file_without_text ascii_codec None "rb" string read_block ∅).
  - reflexivity.
  - left. reflexivity.
Defined.

(** X9.  A text that is not empty and that [temp.write] refuses: the write
    raises before the [yield], outside the [try]; the block does not run
    and the empty temporary file stays behind.  The exception is
    [TypeError] in a binary mode that writes, [UnsupportedOperation] in a
    mode that does not write (with the text [write] for a binary mode and
    [not writable] for a text mode), and the [UnicodeEncodeError] of the
    encoding in a text mode that writes. *)
Theorem temp_file_refused_write_leaks codec d mode e A
    (block : string → M (gmap string string) A) (fs : gmap string string) :
  valid_mode mode = true →
  d ≠ "" →
  write_refusal codec mode d = Some e →
  with_ (temp_filename codec (Some d) mode) block fs =
    (Raise e, <[fresh (dom fs) := ""]> fs) ∧
  (binary mode = true → writable mode = true →
   e = Exn TypeError_ [VStr "a bytes-like object is required, not 'str'"] None) ∧
  (binary mode = true → writable mode = false →
   e = Exn UnsupportedOperation_ [VStr "write"] None) ∧
  (binary mode = false → writable mode = false →
   e = Exn UnsupportedOperation_ [VStr "not writable"] None) ∧
  (binary mode = false → writable mode = true → codec d = Some e).
Proof.
  intros Hv Hd He. split.
  - unfold with_. simpl.
    unfold NamedTemporaryFile, write, mbind, M_bind, bind, raise.
    rewrite Hv. simpl. rewrite bool_decide_eq_false_2 by done. simpl.
    by rewrite He.
  - unfold write_refusal in He.
    destruct (binary mode), (writable mode); split_and!; intros; congruence.
Qed.

Lemma temp_file_refused_write_leaks_witness :
  with_ (temp_filename utf8_codec (Some "[section]") "rb") read_block ∅ =
    (Raise (Exn UnsupportedOperation_ [VStr "write"] None),
     <[fresh (dom (∅ : gmap string string)) := ""]> ∅) ∧
  with_ (temp_filename ascii_codec (Some cafe) "wt") read_block ∅ =
    (Raise (Exn UnicodeEncodeError_
              [VStr "ascii"; VStr cafe; VInt 3; VInt 4;
               VStr "ordinal not in range(128)"] None),
     <[fresh (dom (∅ : gmap string string)) := ""]> ∅).
Proof.
  split.
  - apply (proj1 (temp_file_refused_write_leaks utf8_codec "[section]" "rb"
                    (Exn UnsupportedOperation_ [VStr "write"] None) string read_block ∅
                    eq_refl ltac:(discriminate) eq_refl)).
  - apply (proj1 (temp_file_refused_write_leaks ascii_codec cafe "wt"
                    (Exn UnicodeEncodeError_
                       [VStr "ascii"; VStr cafe; VInt 3; VInt 4;
                        VStr "ordinal not in range(128)"] None)
                    string read_block ∅ eq_refl ltac:(discriminate) eq_refl)).
Defined.

(** X10.  A mode that [open] refuses: the scope raises the [ValueError] of
    [open], the block does not run and the files are as they were. *)
Theorem temp_file_invalid_mode codec data mode A
    (block : string → M (gmap string string) A) (fs : gmap string string) :
  valid_mode mode = false →
  with_ (temp_filename codec data mode) block fs =
    (Raise (Exn ValueError_ [VStr (mode_error_text mode)] None), fs).
Proof.
  intros Hv. unfold with_. simpl.
  unfold NamedTemporaryFile, mbind, M_bind, bind. by rewrite Hv.
Qed.

Lemma temp_file_invalid_mode_witness :
  with_ (temp_filename utf8_codec (Some "[section]") "rw") read_block
        {[ "a.cfg" := "x" ]} =
    (Raise (Exn ValueError_
              [VStr "must have exactly one of create/read/write/append mode"] None),
     {[ "a.cfg" := "x" ]}).
Proof.
  apply (temp_file_invalid_mode utf8_codec (Some "[section]") "rw" string read_block
           {[ "a.cfg" := "x" ]}).
  reflexivity.
Defined.

(** The texts of [open] for some refused modes. *)
Example mode_error_texts :
  mode_error_text "q" = "invalid mode: 'q'" ∧
  mode_error_text "ww" = "invalid mode: 'ww'" ∧
  mode_error_text "wtb" = "can't have text and binary mode at once" ∧
  mode_error_text "rwtb" = "can't have text and binary mode at once" ∧
  mode_error_text "rw+" = "must have exactly one of create/read/write/append mode" ∧
  mode_error_text "" =
    "Must have exactly one of create/read/write/append mode and at most one plus" ∧
  mode_error_text ("w" +:+ String (ascii_of_nat 0) "q") = "embedded null character".
Proof. split_and!; reflexivity. Qed.

End TempFilenameMore.

(** ** More about [log_exceptions_warnings] *)

Section LogExceptionsWarningsMore.
Import LogExceptionsWarnings.

(** The keys that [warn_explicit] finds in the registry of the module of
    the decorator, when that registry is clear. *)
Lemma registry_clear_keys w :
  registry_clear w →
  (if decide ((default (0%nat, ∅) (registries w !! util_module)).1 = filters_version w)
   then (default (0%nat, ∅) (registries w !! util_module)).2
   else (∅ : gset (string * string * Z))) = ∅.
Proof.
  intros Hclear. case_decide as Hv; [|done].
  destruct (registries w !! util_module) as [r|] eqn:Hr; simpl in *; [|done].
  by destruct (Hclear r Hr).
Qed.

(** One call of [warnings.warn] by the wrapper under a filter that raises. *)
Lemma warn_raises_under_error text cat w :
  issubclass cat "Warning" = true →
  find_action (filters w) cat reraise_lineno = ActError →
  registry_clear w →
  ∃ w', warn text cat util_file reraise_lineno util_module w =
          (Raise (Exn cat [VStr text] None), w') ∧
        log w' = log w ∧
        warn_calls w' = warn_calls w ++ [WarningMessage text cat util_file reraise_lineno].
Proof.
  intros Hcat Hact Hclear.
  unfold warn, mbind, M_bind, bind, modify. rewrite Hcat.
  unfold warn_explicit. cbn [message category lineno].
  change (registries (add_warn_call _ w)) with (registries w).
  change (filters_version (add_warn_call _ w)) with (filters_version w).
  change (filters (add_warn_call _ w)) with (filters w).
  rewrite (registry_clear_keys w Hclear).
  rewrite decide_False by set_solver. rewrite Hact. by eexists.
Qed.

(** X11.  Under filters that turn the category of the first captured
    warning into an error, the wrapper logs that warning and then raises
    it, with the message it composed: the value of the function is lost
    and the warnings captured after the first are neither logged nor
    issued again. *)
Theorem reissued_warning_raised function args kwargs w v w1 warn_ rest :
  __call__ function args kwargs (inside w) = (Ret v, w1) →
  lists w1 !!! warn_list_of w = warn_ :: rest →
  issubclass (category warn_) "Warning" = true →
  find_action (filters w) (category warn_) reraise_lineno = ActError →
  (∀ r, registries w1 !! util_module = Some r → (r.1 ≤ filters_version w1)%nat) →
  ∃ w', wrapper function args kwargs w =
          (Raise (Exn (category warn_) [VStr (compose_msg warn_)] None), w') ∧
        log w' = log w1 ++ [logged function warn_] ∧
        warn_calls w' = warn_calls w1 ++ [reissued warn_].
Proof.
  intros Hrun Hlist Hcat Hact Hreg.
  rewrite (wrapper_returns _ _ _ _ _ _ Hrun), Hlist, report_cons.
  destruct (warn_raises_under_error (compose_msg warn_) (category warn_)
              (add_log (logged function warn_) (leave w w1)) Hcat Hact)
    as (w' & -> & Hlog & Hcalls).
  - intros r Hr. left. simpl in *. specialize (Hreg r Hr). lia.
  - by exists w'.
Qed.

Lemma reissued_warning_raised_witness :
  ∃ w', wrapper warns_twice [] ∅ error_world =
          (Raise (Exn ConfigWarning [VStr (compose_msg bad_value)] None), w') ∧
        log w' = (log (__call__ warns_twice [] ∅ (inside error_world)).2) ++
                 [logged warns_twice bad_value] ∧
        warn_calls w' = (warn_calls (__call__ warns_twice [] ∅ (inside error_world)).2) ++
                        [reissued bad_value].
Proof.
  apply (reissued_warning_raised warns_twice [] ∅ error_world (VInt 1)
           ((__call__ warns_twice [] ∅ (inside error_world)).2) bad_value [old_key]).
  - vm_compute. reflexivity.
  - vm_compute. reflexivity.
  - reflexivity.
  - reflexivity.
  - intros r Hr. vm_compute in Hr. discriminate Hr.
Defined.

(** One call of [warnings.warn] by the wrapper under a filter that drops
    the warning: only the registry and the calls change. *)
Lemma warn_dropped_under_ignore text cat w :
  issubclass cat "Warning" = true →
  find_action (filters w) cat reraise_lineno = ActIgnore →
  ∃ w', warn text cat util_file reraise_lineno util_module w = (Ret tt, w') ∧
        filters w' = filters w ∧ log w' = log w ∧ stderr w' = stderr w ∧
        lists w' = lists w ∧
        warn_calls w' = warn_calls w ++ [WarningMessage text cat util_file reraise_lineno].
Proof.
  intros Hcat Hact.
  unfold warn, mbind, M_bind, bind, modify. rewrite Hcat.
  unfold warn_explicit. cbn [message category lineno].
  change (filters (add_warn_call _ w)) with (filters w). rewrite Hact.
  case_decide; by eexists.
Qed.

Lemma report_under_ignore function ws w :
  (∀ x, x ∈ ws → issubclass (category x) "Warning" = true ∧
                 find_action (filters w) (category x) reraise_lineno = ActIgnore) →
  ∃ w', report function ws w = (Ret tt, w') ∧
        log w' = log w ++ (logged function <$> ws) ∧ stderr w' = stderr w ∧
        lists w' = lists w ∧
        warn_calls w' = warn_calls w ++ (reissued <$> ws).
Proof.
  revert w. induction ws as [|a ws IH]; intros w Hall.
  - exists w. simpl. by rewrite !app_nil_r.
  - destruct (Hall a) as [Hcat Hact]; [by left|].
    rewrite report_cons.
    destruct (warn_dropped_under_ignore (compose_msg a) (category a)
                (add_log (logged function a) w) Hcat Hact)
      as (w1 & -> & Hf & Hl & Hs & Hls & Hc).
    destruct (IH w1) as (w' & Hr & Hl' & Hs' & Hls' & Hc').
    { intros x Hx. rewrite Hf. apply Hall. by right. }
    exists w'. split_and!; [done|..].
    + rewrite Hl', Hl. simpl. by rewrite <- app_assoc.
    + by rewrite Hs', Hs.
    + by rewrite Hls', Hls.
    + rewrite Hc', Hc. simpl. by rewrite <- app_assoc.
Qed.

(** X12.  What the wrapper logs does not depend on the filters of the
    caller: when these drop every captured warning, the wrapper still logs
    each of them, in order, and returns the value of the function; nothing
    reaches the hook (neither [stderr] nor a recording list). *)
Theorem ignored_warnings_still_logged function args kwargs w v w1 :
  __call__ function args kwargs (inside w) = (Ret v, w1) →
  (∀ x, x ∈ lists w1 !!! warn_list_of w →
        issubclass (category x) "Warning" = true ∧
        find_action (filters w) (category x) reraise_lineno = ActIgnore) →
  ∃ w', wrapper function args kwargs w = (Ret v, w') ∧
        log w' = log w1 ++ (logged function <$> lists w1 !!! warn_list_of w) ∧
        stderr w' = stderr w1 ∧ lists w' = lists w1.
Proof.
  intros Hrun Hall.
  rewrite (wrapper_returns _ _ _ _ _ _ Hrun).
  destruct (report_under_ignore function (lists w1 !!! warn_list_of w) (leave w w1) Hall)
    as (w' & -> & Hl & Hs & Hls & _).
  by exists w'.
Qed.

Lemma ignored_warnings_still_logged_witness :
  ∃ w', wrapper warns_twice [] ∅ ignore_world = (Ret (VInt 1), w') ∧
        log w' = log (__call__ warns_twice [] ∅ (inside ignore_world)).2 ++
                 (logged warns_twice <$>
                    lists (__call__ warns_twice [] ∅ (inside ignore_world)).2
                      !!! warn_list_of ignore_world) ∧
        stderr w' = stderr (__call__ warns_twice [] ∅ (inside ignore_world)).2 ∧
        lists w' = lists (__call__ warns_twice [] ∅ (inside ignore_world)).2.
Proof.
  apply (ignored_warnings_still_logged warns_twice [] ∅ ignore_world (VInt 1)
           ((__call__ warns_twice [] ∅ (inside ignore_world)).2)).
  - vm_compute. reflexivity.
  - intros x Hx.
    assert (Hl : lists (__call__ warns_twice [] ∅ (inside ignore_world)).2
                   !!! warn_list_of ignore_world = [bad_value; old_key])
      by (vm_compute; reflexivity).
    rewrite Hl in Hx.
    apply elem_of_cons in Hx as [->|Hx]; [split; reflexivity|].
    apply list_elem_of_singleton in Hx as ->. split; reflexivity.
Defined.

(** One call of [warnings.warn] by the wrapper under a filter that shows
    the warning, with the default hook. *)
Lemma warn_shown_under_always text cat w :
  issubclass cat "Warning" = true →
  find_action (filters w) cat reraise_lineno = ActAlways →
  showwarning w = None →
  registry_clear w →
  ∃ w', warn text cat util_file reraise_lineno util_module w = (Ret tt, w') ∧
        filters w' = filters w ∧ showwarning w' = None ∧ registry_clear w' ∧
        log w' = log w ∧
        stderr w' = stderr w ++ [WarningMessage text cat util_file reraise_lineno] ∧
        warn_calls w' = warn_calls w ++ [WarningMessage text cat util_file reraise_lineno].
Proof.
  intros Hcat Hact Hhook Hclear.
  unfold warn, mbind, M_bind, bind, modify. rewrite Hcat.
  unfold warn_explicit. cbn [message category lineno].
  change (registries (add_warn_call _ w)) with (registries w).
  change (filters_version (add_warn_call _ w)) with (filters_version w).
  change (filters (add_warn_call _ w)) with (filters w).
  rewrite (registry_clear_keys w Hclear).
  rewrite decide_False by set_solver. rewrite Hact.
  unfold show, modify. simpl. rewrite Hhook. simpl.
  eexists. split_and!; try done.
  intros r Hr. simpl in Hr. rewrite lookup_insert_eq in Hr.
  injection Hr as <-. by right.
Qed.

Lemma report_under_always function ws w :
  (∀ x, x ∈ ws → issubclass (category x) "Warning" = true ∧
                 find_action (filters w) (category x) reraise_lineno = ActAlways) →
  showwarning w = None →
  registry_clear w →
  ∃ w', report function ws w = (Ret tt, w') ∧
        log w' = log w ++ (logged function <$> ws) ∧
        stderr w' = stderr w ++ (reissued <$> ws).
Proof.
  revert w. induction ws as [|a ws IH]; intros w Hall Hhook Hclear.
  - exists w. simpl. by rewrite !app_nil_r.
  - destruct (Hall a) as [Hcat Hact]; [by left|].
    rewrite report_cons.
    destruct (warn_shown_under_always (compose_msg a) (category a)
                (add_log (logged function a) w) Hcat Hact Hhook Hclear)
      as (w1 & -> & Hf & Hh & Hcl & Hl & Hs & _).
    destruct (IH w1) as (w' & Hr & Hl' & Hs'); [|done..|].
    { intros x Hx. rewrite Hf. apply Hall. by right. }
    exists w'. split_and!; [done|..].
    + rewrite Hl', Hl. simpl. by rewrite <- app_assoc.
    + rewrite Hs', Hs. simpl. by rewrite <- app_assoc.
Qed.

(** X13.  With the default hook and filters that show every captured
    warning, the caller sees on [stderr] one warning for each captured one,
    in order, each with the composed message and the category of the
    original, placed at the line of the wrapper; the value of the function
    is returned. *)
Theorem reissued_warnings_shown function args kwargs w v w1 :
  __call__ function args kwargs (inside w) = (Ret v, w1) →
  showwarning w = None →
  (∀ x, x ∈ lists w1 !!! warn_list_of w →
        issubclass (category x) "Warning" = true ∧
        find_action (filters w) (category x) reraise_lineno = ActAlways) →
  (∀ r, registries w1 !! util_module = Some r → (r.1 ≤ filters_version w1)%nat) →
  ∃ w', wrapper function args kwargs w = (Ret v, w') ∧
        log w' = log w1 ++ (logged function <$> lists w1 !!! warn_list_of w) ∧
        stderr w' = stderr w1 ++ (reissued <$> lists w1 !!! warn_list_of w).
Proof.
  intros Hrun Hhook Hall Hreg.
  rewrite (wrapper_returns _ _ _ _ _ _ Hrun).
  destruct (report_under_always function (lists w1 !!! warn_list_of w) (leave w w1))
    as (w' & -> & Hl & Hs); [done|done| |by exists w'].
  intros r Hr. left. simpl in *. specialize (Hreg r Hr). lia.
Qed.

Lemma reissued_warnings_shown_witness :
  ∃ w', wrapper warns_twice [] ∅ always_world = (Ret (VInt 1), w') ∧
        log w' = log (__call__ warns_twice [] ∅ (inside always_world)).2 ++
                 (logged warns_twice <$>
                    lists (__call__ warns_twice [] ∅ (inside always_world)).2
                      !!! warn_list_of always_world) ∧
        stderr w' = stderr (__call__ warns_twice [] ∅ (inside always_world)).2 ++
                 (reissued <$>
                    lists (__call__ warns_twice [] ∅ (inside always_world)).2
                      !!! warn_list_of always_world).
Proof.
  apply (reissued_warnings_shown warns_twice [] ∅ always_world (VInt 1)
           ((__call__ warns_twice [] ∅ (inside always_world)).2)).
  - vm_compute. reflexivity.
  - reflexivity.
  - intros x Hx.
    assert (Hl : lists (__call__ warns_twice [] ∅ (inside always_world)).2
                   !!! warn_list_of always_world = [bad_value; old_key])
      by (vm_compute; reflexivity).
    rewrite Hl in Hx.
    apply elem_of_cons in Hx as [->|Hx]; [split; reflexivity|].
    apply list_elem_of_singleton in Hx as ->. split; reflexivity.
  - intros r Hr. vm_compute in Hr. discriminate Hr.
Defined.

(** X14.  An exception that is not an [Exception] ([KeyboardInterrupt],
    [SystemExit]) is not caught by the wrapper: the caller gets it as it
    is, whatever its arguments, and nothing is logged. *)
Theorem non_error_exception_passes function args kwargs w exc w1 :
  __call__ function args kwargs (inside w) = (Raise exc, w1) →
  isinstance exc "Exception" = false →
  ∃ w', wrapper function args kwargs w = (Raise exc, w') ∧
        log w' = log w1 ∧ warn_calls w' = warn_calls w1.
Proof.
  intros Hrun Hexc. rewrite (wrapper_raises _ _ _ _ _ _ Hrun), Hexc. by eexists.
Qed.

Lemma non_error_exception_passes_witness :
  ∃ w', wrapper interrupted [] ∅ world0 = (Raise (Exn KeyboardInterrupt_ [] None), w') ∧
        log w' = log (__call__ interrupted [] ∅ (inside world0)).2 ∧
        warn_calls w' = warn_calls (__call__ interrupted [] ∅ (inside world0)).2.
Proof.
  apply (non_error_exception_passes interrupted [] ∅ world0
           (Exn KeyboardInterrupt_ [] None)
           ((__call__ interrupted [] ∅ (inside world0)).2)); reflexivity.
Defined.

Lemma captured_warnings_dropped_witness :
  let w' := (wrapper warns_then_fails [] ∅ world0).2 in
  warn_calls w' = warn_calls (__call__ warns_then_fails [] ∅ (inside world0)).2 ∧
  (log w' = log (__call__ warns_then_fails [] ∅ (inside world0)).2 ∨
   ∃ a, log w' = log (__call__ warns_then_fails [] ∅ (inside world0)).2 ++
                 [LogRecord (__module__ warns_then_fails) ERROR a]).
Proof.
  apply (captured_warnings_dropped warns_then_fails [] ∅ world0
           (Exn ConfigError [VStr "wrong section"] None)
           ((__call__ warns_then_fails [] ∅ (inside world0)).2)).
  vm_compute. reflexivity.
Defined.

Lemma one_issued_warning_reported_witness :
  let function := PyFunction "settings" "load" None
                    (λ _ _, warn "bad value" ConfigWarning "/home/user/settings.py"
                                 12 "settings";; mret (VInt 1)) in
  let w' := (wrapper function [] ∅ world0).2 in
  log w' = log world0 ++ [logged function bad_value] ∧
  warn_calls w' = warn_calls world0 ++ [bad_value; reissued bad_value].
Proof.
  apply (one_issued_warning_reported "bad value" ConfigWarning
           "/home/user/settings.py" 12 "settings" (VInt 1) "settings" "load" None
           world0).
  - reflexivity.
  - intros r Hr. vm_compute in Hr. discriminate Hr.
Defined.

Lemma wrapper_refines_call_witness :
  ∃ w', wrapper logs_and_returns [] ∅ world0 = (Ret (VInt 7), w') ∧
        log w' = log (__call__ logs_and_returns [] ∅ world0).2 ∧
        warn_calls w' = warn_calls world0.
Proof.
  apply (wrapper_refines_call logs_and_returns [] ∅ world0 (VInt 7)
           ((__call__ logs_and_returns [] ∅ world0).2)).
  - exists (λ l, (Ret (VInt 7), l ++ [LogRecord "settings" WARNING (VStr "seven")])).
    intros w. reflexivity.
  - reflexivity.
Defined.

(** X18.  The message names the file of the warning without its
    directories. *)
Theorem message_names_file_without_directory text cat dir file line :
  no_slash file = true →
  compose_msg (WarningMessage text cat (dir +:+ String "/" file) line) =
    cls_name cat +:+ ": " +:+ dquote +:+ text +:+ dquote +:+ " in " +:+ file +:+
    ", line: " +:+ pretty line +:+ ".".
Proof.
  intros H. unfold compose_msg. cbn [message category filename lineno].
  by rewrite basename_path.
Qed.

Lemma message_names_file_without_directory_witness :
  compose_msg (WarningMessage "bad value" ConfigWarning
                 ("/home/user" +:+ String "/" "settings.py") 12) =
    cls_name ConfigWarning +:+ ": " +:+ dquote +:+ "bad value" +:+ dquote +:+
    " in " +:+ "settings.py" +:+ ", line: " +:+ pretty 12 +:+ ".".
Proof.
  apply (message_names_file_without_directory "bad value" ConfigWarning
           "/home/user" "settings.py" 12).
  reflexivity.
Defined.

(** X19.  The two classes of the module and the decorator.  A
    [ConfigError] is an [Exception] (and a [SyntaxError]): when the function
    raises one with arguments, its first argument is logged as an error and
    the caller gets the [ConfigError].  A [ConfigWarning] is a [Warning]:
    when the function issues one and returns, the record logged for it
    starts with the name [ConfigWarning]. *)
Theorem config_classes_through_decorator :
  (∀ function args kwargs w w1 a rest ctx,
     __call__ function args kwargs (inside w) =
       (Raise (Exn ConfigError (a :: rest) ctx), w1) →
     ∃ w', wrapper function args kwargs w =
             (Raise (Exn ConfigError (a :: rest) ctx), w') ∧
           log w' = log w1 ++ [LogRecord (__module__ function) ERROR a]) ∧
  (∀ a ctx, isinstance (Exn ConfigError a ctx) "SyntaxError" = true) ∧
  (∀ text file line module v fmodule fname fdoc w,
     (∀ r, registries w !! module = Some r → (r.1 ≤ filters_version w)%nat) →
     log (wrapper (PyFunction fmodule fname fdoc
                     (λ _ _, warn text ConfigWarning file line module;; mret v))
                  [] ∅ w).2 =
       log w ++ [LogRecord fmodule WARNING
                   (VStr ("ConfigWarning: " +:+ dquote +:+ text +:+ dquote +:+
                          " in " +:+ basename file +:+ ", line: " +:+
                          pretty line +:+ "."))]).
Proof.
  split_and!.
  - intros function args kwargs w w1 a rest ctx Hrun.
    rewrite (wrapper_raises _ _ _ _ _ _ Hrun). by eexists.
  - done.
  - intros text file line module v fmodule fname fdoc w Hreg.
    set (function := PyFunction fmodule fname fdoc _).
    destruct (issued_warning_is_captured text ConfigWarning file line module w
                eq_refl Hreg) as (w1 & Hw & Hlist & Hlog & _).
    assert (Hrun : __call__ function [] ∅ (inside w) = (Ret v, w1)).
    { simpl. unfold mbind, M_bind, bind. by rewrite Hw. }
    rewrite (wrapper_returns _ _ _ _ _ _ Hrun), Hlist, report_cons.
    match goal with
    | |- context [warn ?t ?c ?f ?l ?md ?w0] =>
        pose proof (warn_effect t c f l md w0) as (_ & _ & Hl & _);
        destruct (warn t c f l md w0) as [[[]|e] w2]
    end; simpl in *; by rewrite Hl, Hlog.
Qed.

Lemma config_classes_through_decorator_witness :
  (∃ w', wrapper fails [] ∅ world0 =
           (Raise (Exn ConfigError [VStr "wrong section"] None), w') ∧
         log w' = log (__call__ fails [] ∅ (inside world0)).2 ++
                  [LogRecord (__module__ fails) ERROR (VStr "wrong section")]) ∧
  isinstance (Exn ConfigError [] None) "SyntaxError" = true.
Proof.
  split.
  - apply (proj1 config_classes_through_decorator fails [] ∅ world0
             ((__call__ fails [] ∅ (inside world0)).2) (VStr "wrong section") [] None).
    reflexivity.
  - apply (proj1 (proj2 config_classes_through_decorator)).
Defined.

(** One call of [warnings.warn] by the wrapper inside the capture of
    another wrapper: the warning goes to the list of that capture. *)
Lemma warn_recorded_by_outer_capture text cat w w1 :
  issubclass cat "Warning" = true →
  (∀ r, registries w1 !! util_module = Some r → (r.1 ≤ filters_version w1)%nat) →
  let s := leave (inside w) w1 in
  ∀ rec, ∃ s', warn text cat util_file reraise_lineno util_module (add_log rec s) =
                 (Ret tt, s') ∧
        lists s' = <[warn_list_of w :=
                      lists w1 !!! warn_list_of w ++
                      [WarningMessage text cat util_file reraise_lineno]]> (lists w1) ∧
        log s' = log w1 ++ [rec] ∧
        warn_calls s' = warn_calls w1 ++ [WarningMessage text cat util_file reraise_lineno].
Proof.
  intros Hcat Hreg s rec_.
  unfold warn, mbind, M_bind, bind, modify. rewrite Hcat.
  unfold warn_explicit. cbn [message category lineno].
  match goal with
  | |- context [decide ((default ?d ?o).1 = ?v)] =>
      destruct (decide ((default d o).1 = v)) as [Heq|_]
  end.
  { exfalso. simpl in Heq.
    destruct (registries w1 !! util_module) as [r|] eqn:Hr; simpl in Heq.
    - specialize (Hreg r eq_refl). lia.
    - lia. }
  rewrite decide_False by set_solver.
  simpl. rewrite Hcat. simpl. by eexists.
Qed.

(** X20.  The decorator applied twice.  The warning issued again by the
    inner wrapper is captured by the outer one, which logs it once more:
    a function that returns after one captured warning leaves two records,
    the second one with the first message inside its own and with the line
    of the wrapper in [util.py] as the place of the warning. *)
Theorem decorated_twice_logs_twice function args kwargs w v w1 warn_ :
  __call__ function args kwargs (inside (inside w)) = (Ret v, w1) →
  lists w1 !!! warn_list_of (inside w) = [warn_] →
  lists w1 !!! warn_list_of w = [] →
  issubclass (category warn_) "Warning" = true →
  (∀ r, registries w1 !! util_module = Some r → (r.1 ≤ filters_version w1)%nat) →
  let twice := log_exceptions_warnings (log_exceptions_warnings function) in
  let first := compose_msg warn_ in
  let second := cls_name (category warn_) +:+ ": " +:+ dquote +:+ first +:+ dquote +:+
                " in util.py, line: 85." in
  log (__call__ twice args kwargs w).2 =
    log w1 ++ [LogRecord (__module__ function) WARNING (VStr first);
               LogRecord (__module__ function) WARNING (VStr second)].
Proof.
  intros Hrun Hlist Houter Hcat Hreg twice first second.
  destruct (warn_recorded_by_outer_capture first (category warn_) w w1 Hcat Hreg
              (logged function warn_)) as (s' & Hwarn & Hlists & Hlog & _).
  assert (Hinner : wrapper function args kwargs (inside w) = (Ret v, s')).
  { rewrite (wrapper_returns _ _ _ _ _ _ Hrun), Hlist, report_cons.
    fold first. by rewrite Hwarn. }
  assert (Hcaptured : lists s' !!! warn_list_of w = [reissued warn_]).
  { rewrite Hlists, lookup_total_insert_eq, Houter. done. }
  change (__call__ twice args kwargs w)
    with (wrapper (log_exceptions_warnings function) args kwargs w).
  rewrite (wrapper_returns (log_exceptions_warnings function) _ _ _ _ _ Hinner).
  rewrite Hcaptured, report_cons.
  match goal with
  | |- context [warn ?t ?c ?f ?l ?md ?w0] =>
      pose proof (warn_effect t c f l md w0) as (_ & _ & Hl & _);
      destruct (warn t c f l md w0) as [[[]|e] w2]
  end; simpl in *; rewrite Hl, Hlog; by rewrite <- app_assoc.
Qed.

Lemma decorated_twice_logs_twice_witness :
  log (__call__ (log_exceptions_warnings (log_exceptions_warnings warns_once)) [] ∅
         world0).2 =
    log (__call__ warns_once [] ∅ (inside (inside world0))).2 ++
    [LogRecord "settings" WARNING (VStr (compose_msg bad_value));
     LogRecord "settings" WARNING
       (VStr ("ConfigWarning: " +:+ dquote +:+ compose_msg bad_value +:+ dquote +:+
              " in util.py, line: 85."))].
Proof.
  apply (decorated_twice_logs_twice warns_once [] ∅ world0 (VInt 1)
           ((__call__ warns_once [] ∅ (inside (inside world0))).2) bad_value).
  - vm_compute. reflexivity.
  - vm_compute. reflexivity.
  - vm_compute. reflexivity.
  - reflexivity.
  - intros r Hr. vm_compute in Hr. discriminate Hr.
Defined.

End LogExceptionsWarningsMore.

(** ** More about [console_logger_level] and [no_logging] *)

Section LoggingControlMore.
Import LoggingControl.

(** X21.  With no console handler among the handlers of the root logger
    the scope of [console_logger_level] changes nothing: the statement is
    the block. *)
Theorem no_console_handler_no_change A (block : value → M logging A) lvl w :
  console_handler w = None →
  with_ (console_logger_level lvl) block w =
    match block VNone w with
    | (Ret a, s) => (Ret (Some a), s)
    | (Raise e, s) => (Raise e, s)
    end.
Proof.
  intros Hc. unfold with_. simpl. rewrite Hc.
  by destruct (block VNone w) as [[] ?].
Qed.

Lemma no_console_handler_no_change_witness :
  with_ (console_logger_level 40) pass_block file_only_state =
    match pass_block VNone file_only_state with
    | (Ret a, s) => (Ret (Some a), s)
    | (Raise e, s) => (Raise e, s)
    end.
Proof.
  apply (no_console_handler_no_change value pass_block 40 file_only_state).
  reflexivity.
Defined.

(** X22.  The scope changes one thing: the level of the first handler of
    the root logger, in the order of its list, that is a stream handler on
    [sys.stdout].  Inside the scope that handler has the level asked for;
    every other handler, a second console handler included, the list of
    handlers and the threshold of [logging.disable] are as before. *)
Theorem scope_changes_first_console_handler lvl w h :
  console_handler w = Some h →
  let s := (before_yield (console_logger_level lvl) w).2 in
  (∃ l1 l2, handlers w = l1 ++ h :: l2 ∧ Forall (λ x, is_console w x = false) l1) ∧
  is_console w h = true ∧
  level <$> objects s !! h = Some lvl ∧
  (∀ h', h' ≠ h → objects s !! h' = objects w !! h') ∧
  handlers s = handlers w ∧ disable s = disable w ∧ stdout s = stdout w.
Proof.
  intros Hc s. subst s. simpl. rewrite Hc. simpl.
  destruct (console_handler_exists w h Hc) as [hd Hhd].
  split_and!; try done.
  - apply head_filter_Some in Hc as (l1 & l2 & Hl & Hall).
    exists l1, l2. split; [done|].
    eapply Forall_impl; [exact Hall|]. intros x Hx. by apply not_true_is_false.
  - apply head_Some_elem_of, list_elem_of_filter in Hc. by destruct Hc.
  - by rewrite lookup_alter_eq, Hhd.
  - intros h' Hne. by rewrite lookup_alter_ne.
Qed.

Lemma scope_changes_first_console_handler_witness :
  let s := (before_yield (console_logger_level 40) two_consoles_state).2 in
  (∃ l1 l2, handlers two_consoles_state = l1 ++ 1%nat :: l2 ∧
            Forall (λ x, is_console two_consoles_state x = false) l1) ∧
  is_console two_consoles_state 1%nat = true ∧
  level <$> objects s !! 1%nat = Some 40 ∧
  (∀ h', h' ≠ 1%nat → objects s !! h' = objects two_consoles_state !! h') ∧
  handlers s = handlers two_consoles_state ∧
  disable s = disable two_consoles_state ∧ stdout s = stdout two_consoles_state.
Proof.
  apply (scope_changes_first_console_handler 40 two_consoles_state 1%nat).
  reflexivity.
Defined.

Lemma console_level_restored_witness :
  level <$> objects (with_ (console_logger_level 40) meddling_block console_state).2
    !! 1%nat =
  level <$> objects console_state !! 1%nat.
Proof.
  apply (console_level_restored value meddling_block 40 console_state 1%nat VNone
           ((meddling_block VNone (setLevel 1%nat 40 console_state).2).2)).
  - reflexivity.
  - reflexivity.
  - vm_compute. eexists. reflexivity.
Defined.

(** X24.  When the block raises, neither scope puts anything back: the
    caller gets the exception, the console handler stays at the level of
    the scope and logging stays disabled up to CRITICAL. *)
Theorem scope_left_by_exception_keeps_change A (block : value → M logging A) lvl w e :
  (∀ y s, block y s = (Raise e, s)) →
  with_ (console_logger_level lvl) block w =
    (Raise e, (before_yield (console_logger_level lvl) w).2) ∧
  (∀ h, console_handler w = Some h →
        level <$> objects (with_ (console_logger_level lvl) block w).2 !! h = Some lvl) ∧
  with_ no_logging block w = (Raise e, disabled w).
Proof.
  intros Hblock.
  assert (H1 : with_ (console_logger_level lvl) block w =
               (Raise e, (before_yield (console_logger_level lvl) w).2)).
  { unfold with_. simpl. destruct (console_handler w) as [h|].
    - unfold mbind, M_bind, bind, mret, M_ret, ret.
      change (setLevel h lvl w) with (Ret tt, (setLevel h lvl w).2).
      cbn iota. by rewrite Hblock.
    - by rewrite Hblock. }
  split_and!.
  - exact H1.
  - intros h Hc. rewrite H1. simpl. rewrite Hc. simpl.
    destruct (console_handler_exists w h Hc) as [hd Hhd].
    by rewrite lookup_alter_eq, Hhd.
  - unfold with_. simpl.
    unfold mbind, M_bind, bind, mret, M_ret, ret, logging_disable, modify.
    by rewrite Hblock.
Qed.

Lemma scope_left_by_exception_keeps_change_witness :
  with_ (console_logger_level 40) failing_block console_state =
    (Raise (Exn ValueError_ [VStr "bad"] None),
     (before_yield (console_logger_level 40) console_state).2) ∧
  (∀ h, console_handler console_state = Some h →
        level <$> objects (with_ (console_logger_level 40) failing_block console_state).2
          !! h = Some 40) ∧
  with_ no_logging failing_block console_state =
    (Raise (Exn ValueError_ [VStr "bad"] None), disabled console_state).
Proof.
  apply (scope_left_by_exception_keeps_change value failing_block 40 console_state
           (Exn ValueError_ [VStr "bad"] None)).
  intros y s. reflexivity.
Defined.

(** The scope of [no_logging] around a block. *)
Lemma no_logging_run A (block : value → M logging A) w :
  with_ no_logging block w =
    match block VNone (disabled w) with
    | (Ret a, s) => (Ret (Some a), enabled s)
    | (Raise e, s) => (Raise e, s)
    end.
Proof.
  unfold with_, disabled. simpl.
  unfold mbind, M_bind, bind, mret, M_ret, ret, logging_disable, modify.
  by destruct (block VNone _) as [[] ?].
Qed.

(** X25.  The block of [no_logging] starts with the threshold at
    CRITICAL and the rest of the state as it was; when it returns, the
    scope ends with the threshold at NOTSET, whatever the threshold was
    before the scope and whatever the block did to it. *)
Theorem no_logging_ends_enabled A (block : value → M logging A) w a s :
  block VNone (disabled w) = (Ret a, s) →
  before_yield no_logging w = (Ret (VNone, tt), disabled w) ∧
  with_ no_logging block w = (Ret (Some a), enabled s).
Proof.
  intros Hblock. split; [done|].
  unfold with_. simpl. unfold disabled in Hblock.
  unfold mbind, M_bind, bind, mret, M_ret, ret, logging_disable, modify.
  by rewrite Hblock.
Qed.

Lemma no_logging_ends_enabled_witness :
  before_yield no_logging quiet_state = (Ret (VNone, tt), disabled quiet_state) ∧
  with_ no_logging pass_block quiet_state = (Ret (Some VNone), enabled (disabled quiet_state)).
Proof.
  apply (no_logging_ends_enabled value pass_block quiet_state VNone
           (disabled quiet_state)).
  reflexivity.
Defined.

(** X26.  Scopes of [no_logging] do not nest: when an inner scope ends,
    logging is enabled again for the rest of the outer block, which runs as
    it would after [logging.disable(NOTSET)]. *)
Theorem nested_no_logging_enables_early A B (inner : value → M logging A)
    (rest : M logging B) w :
  (∀ y s, ∃ a, inner y s = (Ret a, s)) →
  with_ no_logging (λ _, with_ no_logging inner ≫= λ _, rest) w =
  with_ no_logging (λ _, logging_disable NOTSET ≫= λ _, rest) w.
Proof.
  intros Hinner. rewrite !no_logging_run.
  assert (H : (with_ no_logging inner ≫= λ _, rest) (disabled w) =
              (logging_disable NOTSET ≫= λ _, rest) (disabled w)); [|by rewrite H].
  unfold mbind, M_bind, bind. rewrite no_logging_run.
  destruct (Hinner VNone (disabled (disabled w))) as [a ->]. done.
Qed.

Lemma nested_no_logging_enables_early_witness :
  with_ no_logging (λ _, with_ no_logging pass_block ≫= λ _, (mret tt : M logging unit))
        console_state =
  with_ no_logging (λ _, logging_disable NOTSET ≫= λ _, (mret tt : M logging unit))
        console_state.
Proof.
  apply (nested_no_logging_enables_early value unit pass_block (mret tt) console_state).
  intros y s. exists VNone. reflexivity.
Defined.

End LoggingControlMore.
